(** * Spotify playlist exporter: a shallow embedding of
      [spotify_playlist_exporter.user.js] and the properties of its
      collection loop, row parser, export cycle and button injection. *)

From Stdlib Require Import String Ascii DecimalString DecimalNat.
From Stdlib Require Import List Arith Lia NArith Bool.
Import ListNotations.
Open Scope string_scope.
Open Scope list_scope.
Open Scope nat_scope.

Set Implicit Arguments.
Set Warnings "-register-all,-notation-for-abbreviation".

(** ** JavaScript strings

    A JavaScript string is a sequence of UTF-16 code units.  The script
    only concatenates, trims and joins strings, so code units are kept as
    numbers and no arithmetic is done on them. *)

Module JS.

Definition jsstring := list N.

(** A literal of the source text (all of them are ASCII). *)
Definition lit (s : string) : jsstring :=
  map N_of_ascii (list_ascii_of_string s).

(** The line feed of the escape [\n]. *)
Definition LF : jsstring := [10%N].

(** Code units removed by [String.prototype.trim]: the WhiteSpace and
    LineTerminator productions of ECMAScript. *)
Definition isWhiteSpace (c : N) : bool :=
  ((9 <=? c) && (c <=? 13) || (c =? 32) || (c =? 160) || (c =? 5760)
   || (8192 <=? c) && (c <=? 8202) || (c =? 8232) || (c =? 8233)
   || (c =? 8239) || (c =? 8287) || (c =? 12288) || (c =? 65279))%N.

Fixpoint trimStart (s : jsstring) : jsstring :=
  match s with
  | [] => []
  | c :: s' => if isWhiteSpace c then trimStart s' else s
  end.

Definition trimEnd (s : jsstring) : jsstring := rev (trimStart (rev s)).

Definition trim (s : jsstring) : jsstring := trimEnd (trimStart s).

(** [Array.prototype.join] on an array of strings. *)
Fixpoint join (sep : jsstring) (xs : list jsstring) : jsstring :=
  match xs with
  | [] => []
  | [x] => x
  | x :: rest => x ++ sep ++ join sep rest
  end.

(** How a template literal renders an array length. *)
Definition of_length (n : nat) : jsstring :=
  lit (NilZero.string_of_uint (Nat.to_uint n)).

End JS.

Import JS.

(** The code units of a text written out in a statement. *)
Notation code_units s := (List.map N_of_ascii (list_ascii_of_string s)) (only parsing).

(** ** Abrupt completion

    What a statement inside [try { ... } catch (e) {}] can do: finish, or
    throw.  The thrown value is never inspected by the script. *)

Inductive completion (A : Type) : Type :=
| Normal (a : A)
| Throw.

Arguments Throw {A}.

Definition cbind {A B} (c : completion A) (k : A -> completion B) : completion B :=
  match c with
  | Normal a => k a
  | Throw => Throw
  end.

Definition try_catch {A} (body : completion A) (handler : completion A) : completion A :=
  match body with
  | Normal a => Normal a
  | Throw => handler
  end.

Declare Scope completion_scope.
Delimit Scope completion_scope with completion.
Notation "x <- c ;; k" := (cbind c (fun x => k))
  (at level 61, c at next level, right associativity) : completion_scope.

(** [Array.from(xs).map(f)] with a callback that may throw: the first
    throw ends the whole map. *)
Fixpoint array_map {A B} (f : A -> completion B) (xs : list A) : completion (list B) :=
  match xs with
  | [] => Normal []
  | x :: rest =>
      (y <- f x ;;
       ys <- array_map f rest ;;
       Normal (y :: ys))%completion
  end.

(** [xs.forEach(cb)] with the callback acting on the accumulator it closes
    over ([songs]); a throw of the callback leaves [forEach]. *)
Fixpoint forEach {A S} (cb : S -> A -> completion S) (xs : list A) (acc : S) : completion S :=
  match xs with
  | [] => Normal acc
  | x :: rest => (acc' <- cb acc x ;; forEach cb rest acc')%completion
  end.

(** ** CSS selectors used by the script *)

Record Compound := {
  sel_tag : option string;
  sel_attrs : list (string * string)
}.

(** A chain of compound selectors separated by the descendant combinator. *)
Definition Selector := list Compound.

Definition rowSelector : Selector :=
  [ {| sel_tag := Some "div"; sel_attrs := [("data-testid", "tracklist-row")] |} ]%string.

Definition titleSelector : Selector :=
  [ {| sel_tag := Some "div"; sel_attrs := [("aria-colindex", "2")] |};
    {| sel_tag := Some "div"; sel_attrs := [("dir", "auto")] |} ]%string.

Definition artistSelector : Selector :=
  [ {| sel_tag := Some "div"; sel_attrs := [("aria-colindex", "3")] |};
    {| sel_tag := Some "a"; sel_attrs := [] |} ]%string.

Definition Compound_eq_dec (x y : Compound) : {x = y} + {x <> y}.
Proof.
  decide equality.
  - apply (list_eq_dec (fun p q : string * string =>
                          ltac:(decide equality; apply string_dec))).
  - decide equality. apply string_dec.
Defined.

Definition selector_eqb (a b : Selector) : bool :=
  if list_eq_dec Compound_eq_dec a b then true else false.

(** ** Rows as the parser sees them

    The host page owns the rows; the script only queries them.  A row
    handle answers the two queries of [extractSongs], and an element
    answers [el.textContent.trim()] up to the trim; every one of these
    reads may complete abruptly (a recycled node, a null text). *)

Record Element := {
  textContent : completion jsstring
}.

Record Row := {
  querySelector : Selector -> completion (option Element);
  querySelectorAll : Selector -> completion (list Element)
}.

(** The body of the [try] block of [extractSongs]: the title, the artist
    names, and the string that is pushed. *)
Definition read_title (row : Row) : completion jsstring :=
  (titleDiv <- querySelector row titleSelector ;;
   match titleDiv with
   | Some el => (t <- textContent el ;; Normal (trim t))
   | None => Normal (lit "[Unknown Title]")
   end)%completion.

Definition read_artist_names (row : Row) : completion (list jsstring) :=
  (artistLinks <- querySelectorAll row artistSelector ;;
   array_map (fun a => t <- textContent a ;; Normal (trim t)) artistLinks)%completion.

Definition read_row (row : Row) : completion jsstring :=
  (title <- read_title row ;;
   names <- read_artist_names row ;;
   let artists := join (lit ", ") names in
   Normal (title ++ lit " - " ++ artists))%completion.

(** The callback given to [rows.forEach]: push on success, swallow a throw. *)
Definition extract_callback (songs : list jsstring) (row : Row) : completion (list jsstring) :=
  try_catch
    (line <- read_row row ;; Normal (songs ++ [line]))%completion
    (Normal songs).

Definition extractSongs (rows : list Row) : completion (list jsstring) :=
  forEach extract_callback rows [].

(** ** The host page and the effects of an export cycle *)

(** The three places where [scrollToLoadAllSongs] looks for the scroll
    container. *)
Definition presentationSelector : Selector :=
  [ {| sel_tag := Some "div";
       sel_attrs := [("role", "presentation"); ("tabindex", "-1")] |} ]%string.

Definition playlistTracklistSelector : Selector :=
  [ {| sel_tag := None; sel_attrs := [("data-testid", "playlist-tracklist")] |} ]%string.

Definition trackListSelector : Selector :=
  [ {| sel_tag := None; sel_attrs := [("data-testid", "track-list")] |} ]%string.

(** A handle on a scrollable element of the page. *)
Definition Container := nat.

(** What the page answers.  [rows_at h t] is the answer of
    [document.querySelectorAll('div[data-testid="tracklist-row"]')] once
    [t] poll delays have elapsed: the page re-renders only while the script
    is suspended in [sleep]. *)
Record Host := {
  document_querySelector : Selector -> option Container;
  rows_at : nat -> list Row;
  GM_setClipboard_defined : bool
}.

(** The two fields of the trigger control that [exportSongs] writes. *)
Record Button := {
  btn_textContent : jsstring;
  btn_disabled : bool
}.

Inductive Event : Type :=
| EvSetTextContent (s : jsstring)
| EvSetDisabled (b : bool)
| EvAlert (msg : jsstring)
| EvScrollTo (c : Container)
| EvSleep (ms : nat)
| EvCountRows (n : nat)
| EvExtractSongs (songs : list jsstring)
| EvGMSetClipboard (text : jsstring)
| EvNavigatorClipboard (text : jsstring)
| EvDownload (filename mime text : jsstring).

Record Machine := {
  btn : Button;
  clock : nat;
  trace : list Event
}.

(** State and abrupt completion, threaded through an [async] body. *)
Definition M (A : Type) : Type := Machine -> completion A * Machine.

Definition ret {A} (a : A) : M A := fun m => (Normal a, m).

Definition bind {A B} (c : M A) (k : A -> M B) : M B :=
  fun m =>
    match c m with
    | (Normal a, m') => k a m'
    | (Throw, m') => (Throw, m')
    end.

Declare Scope machine_scope.
Delimit Scope machine_scope with machine.
Notation "x <- c ;; k" := (bind c (fun x => k))
  (at level 61, c at next level, right associativity) : machine_scope.
Notation "c ;; k" := (bind c (fun _ => k))
  (at level 61, right associativity) : machine_scope.

Definition lift {A} (c : completion A) : M A := fun m => (c, m).

Definition emit (e : Event) : M unit :=
  fun m => (Normal tt, {| btn := btn m; clock := clock m; trace := trace m ++ [e] |}).

Definition set_textContent (s : jsstring) : M unit :=
  fun m =>
    (Normal tt,
     {| btn := {| btn_textContent := s; btn_disabled := btn_disabled (btn m) |};
        clock := clock m;
        trace := trace m ++ [EvSetTextContent s] |}).

Definition set_disabled (b : bool) : M unit :=
  fun m =>
    (Normal tt,
     {| btn := {| btn_textContent := btn_textContent (btn m); btn_disabled := b |};
        clock := clock m;
        trace := trace m ++ [EvSetDisabled b] |}).

Definition alert (msg : jsstring) : M unit := emit (EvAlert msg).

(** [await sleep(ms)]: the only point where the page gets to render. *)
Definition sleep (ms : nat) : M unit :=
  fun m =>
    (Normal tt,
     {| btn := btn m; clock := S (clock m); trace := trace m ++ [EvSleep ms] |}).

Definition scrollTo (c : Container) : M unit := emit (EvScrollTo c).

(** [document.querySelectorAll('div[data-testid="tracklist-row"]')]. *)
Definition document_rows (h : Host) : M (list Row) :=
  fun m => (Normal (rows_at h (clock m)), m).

(** JavaScript's [a || b] on possibly-null references. *)
Definition orElse {A} (a b : option A) : option A :=
  match a with
  | Some x => Some x
  | None => b
  end.

Definition containerNotFoundMessage : jsstring :=
  lit "Could not find the scrollable container. Please make sure you're on a playlist or liked songs page.".

Definition noSongsMessage : jsstring :=
  lit "No songs found! Make sure you are on a playlist or liked songs page.".

Definition exportedMessage (n : nat) : jsstring :=
  lit "Exported " ++ of_length n ++ lit " songs!" ++ LF
  ++ lit "Copied to clipboard and downloaded as spotify_songs.txt".

(** The [for] loop of [scrollToLoadAllSongs]; [remaining] is [100 - i]. *)
Fixpoint scroll_loop (h : Host) (scrollContainer : Container) (remaining : nat)
         (lastCount sameCountTimes : nat) : M unit :=
  match remaining with
  | 0 => ret tt
  | S remaining' =>
      (scrollTo scrollContainer ;;
       sleep 700 ;;
       rows <- document_rows h ;;
       emit (EvCountRows (length rows)) ;;
       if length rows =? lastCount then
         let sameCountTimes := S sameCountTimes in
         if 3 <? sameCountTimes then ret tt
         else scroll_loop h scrollContainer remaining' (length rows) sameCountTimes
       else
         scroll_loop h scrollContainer remaining' (length rows) 0)%machine
  end.

Definition find_scrollContainer (h : Host) : option Container :=
  orElse (document_querySelector h presentationSelector)
    (orElse (document_querySelector h playlistTracklistSelector)
       (document_querySelector h trackListSelector)).

Definition scrollToLoadAllSongs (h : Host) : M unit :=
  match find_scrollContainer h with
  | None => alert containerNotFoundMessage
  | Some scrollContainer => scroll_loop h scrollContainer 100 0 0
  end.

(** The call [extractSongs()] made by [exportSongs], on the rows the page
    shows at that moment. *)
Definition call_extractSongs (h : Host) : M (list jsstring) :=
  (rows <- document_rows h ;;
   songs <- lift (extractSongs rows) ;;
   emit (EvExtractSongs songs) ;;
   ret songs)%machine.

(** Lines 107 to 115: the blob, the temporary anchor and its click. *)
Definition download (text : jsstring) : M unit :=
  emit (EvDownload (lit "spotify_songs.txt") (lit "text/plain") text).

Definition exportSongs (h : Host) : M unit :=
  (set_textContent (lit "Exporting...") ;;
   set_disabled true ;;
   scrollToLoadAllSongs h ;;
   songs <- call_extractSongs h ;;
   if length songs =? 0 then
     alert noSongsMessage ;;
     set_textContent (lit "Export Songs") ;;
     set_disabled false
   else
     let text := join LF songs in
     (if GM_setClipboard_defined h
      then emit (EvGMSetClipboard text)
      else emit (EvNavigatorClipboard text)) ;;
     download text ;;
     alert (exportedMessage (length songs)) ;;
     set_textContent (lit "Export Songs") ;;
     set_disabled false)%machine.

(** One export cycle, started on a control in state [b]. *)
Definition start (b : Button) : Machine :=
  {| btn := b; clock := 0; trace := [] |}.

Definition run_export (h : Host) (b : Button) : completion unit * Machine :=
  exportSongs h (start b).

(** A click on the control: a disabled button dispatches no click event,
    otherwise its [onclick] handler, [exportSongs], runs. *)
Definition click (h : Host) (b : Button) : option (completion unit * Machine) :=
  if btn_disabled b then None else Some (run_export h b).

(** The control as the events of a trace leave it. *)
Definition apply_event (b : Button) (e : Event) : Button :=
  match e with
  | EvSetTextContent s => {| btn_textContent := s; btn_disabled := btn_disabled b |}
  | EvSetDisabled d => {| btn_textContent := btn_textContent b; btn_disabled := d |}
  | _ => b
  end.

Definition button_after (events : list Event) (b : Button) : Button :=
  fold_left apply_event events b.

(** Counters over a trace. *)
Definition is_scroll (e : Event) : bool :=
  match e with EvScrollTo _ => true | _ => false end.

Definition is_extract (e : Event) : bool :=
  match e with EvExtractSongs _ => true | _ => false end.

Definition is_clipboard (e : Event) : bool :=
  match e with EvGMSetClipboard _ | EvNavigatorClipboard _ => true | _ => false end.

Definition is_download (e : Event) : bool :=
  match e with EvDownload _ _ _ => true | _ => false end.

Definition is_alert (e : Event) : bool :=
  match e with EvAlert _ => true | _ => false end.

Definition is_button_write (e : Event) : bool :=
  match e with EvSetTextContent _ | EvSetDisabled _ => true | _ => false end.

Definition count (p : Event -> bool) (events : list Event) : nat :=
  length (filter p events).

(** ** The document as a tree, for the injection of the trigger control

    Names, ids and attribute values are only ever compared, so they are
    kept as plain strings; text nodes hold JavaScript strings. *)

Module Dom.

Inductive Handler : Type := HandlerExportSongs.

Record ElemData := {
  localName : string;
  attributes : list (string * string);
  style : list (string * string);
  onclick : option Handler
}.

Inductive Node : Type :=
| Text (data : jsstring)
| Elem (d : ElemData) (childNodes : list Node).

(** A reference to an element: the child indices leading to it. *)
Definition Path := list nat.

Fixpoint assoc_get (name : string) (l : list (string * string)) : option string :=
  match l with
  | [] => None
  | (k, v) :: l' => if String.eqb k name then Some v else assoc_get name l'
  end.

Fixpoint assoc_set (name value : string) (l : list (string * string))
  : list (string * string) :=
  match l with
  | [] => [(name, value)]
  | (k, v) :: l' =>
      if String.eqb k name then (k, value) :: l' else (k, v) :: assoc_set name value l'
  end.

Definition getAttribute (name : string) (d : ElemData) : option string :=
  assoc_get name (attributes d).

(** A compound selector against one element. *)
Definition matches (c : Compound) (d : ElemData) : bool :=
  match sel_tag c with
  | Some t => String.eqb t (localName d)
  | None => true
  end
  && forallb (fun kv : string * string =>
                match getAttribute (fst kv) d with
                | Some v => String.eqb v (snd kv)
                | None => false
                end) (sel_attrs c).

Definition has_id (id : string) (d : ElemData) : bool :=
  match getAttribute "id" d with
  | Some v => String.eqb v id
  | None => false
  end.

(** The first child, from index [i] on, in which [f] finds something. *)
Definition scan_children (f : Node -> option Path) : nat -> list Node -> option Path :=
  fix scan (i : nat) (ks : list Node) : option Path :=
    match ks with
    | [] => None
    | k :: ks' =>
        match f k with
        | Some q => Some (i :: q)
        | None => scan (S i) ks'
        end
    end.

(** The first element in tree order that satisfies [p]. *)
Fixpoint find_first (p : ElemData -> bool) (n : Node) : option Path :=
  match n with
  | Text _ => None
  | Elem d kids =>
      if p d then Some [] else scan_children (find_first p) 0 kids
  end.

(** The node that a path leads to. *)
Fixpoint node_at (path : Path) (n : Node) : option Node :=
  match path, n with
  | [], _ => Some n
  | i :: rest, Elem _ kids =>
      match nth_error kids i with
      | Some k => node_at rest k
      | None => None
      end
  | _ :: _, Text _ => None
  end.

Definition getElementById (id : string) (doc : Node) : option Path :=
  find_first (has_id id) doc.

(** [document.querySelector] for the single-compound selectors of
    [addExportButton]. *)
Definition querySelector (c : Compound) (doc : Node) : option Path :=
  find_first (matches c) doc.

Fixpoint update_nth {A} (i : nat) (f : A -> A) (l : list A) : list A :=
  match l, i with
  | [], _ => []
  | x :: l', 0 => f x :: l'
  | x :: l', S i' => x :: update_nth i' f l'
  end.

(** [target.appendChild(child)] with [target] given by its path. *)
Fixpoint appendChild (target : Path) (child : Node) (doc : Node) : Node :=
  match doc with
  | Text _ => doc
  | Elem d kids =>
      match target with
      | [] => Elem d (kids ++ [child])
      | i :: rest => Elem d (update_nth i (appendChild rest child) kids)
      end
  end.

(** How many elements of the tree satisfy [p]. *)
Fixpoint count_elems (p : ElemData -> bool) (n : Node) : nat :=
  match n with
  | Text _ => 0
  | Elem d kids => (if p d then 1 else 0) + list_sum (map (count_elems p) kids)
  end.

(** [node.textContent] of the getter. *)
Fixpoint node_text (n : Node) : jsstring :=
  match n with
  | Text s => s
  | Elem _ kids => concat (map node_text kids)
  end.

Definition createElement (name : string) : Node :=
  Elem {| localName := name; attributes := []; style := []; onclick := None |} [].

Definition set_id (id : string) (n : Node) : Node :=
  match n with
  | Text _ => n
  | Elem d kids =>
      Elem {| localName := localName d;
              attributes := assoc_set "id" id (attributes d);
              style := style d;
              onclick := onclick d |} kids
  end.

Definition set_text (s : jsstring) (n : Node) : Node :=
  match n with
  | Text _ => n
  | Elem d _ => Elem d [Text s]
  end.

Definition set_style (name value : string) (n : Node) : Node :=
  match n with
  | Text _ => n
  | Elem d kids =>
      Elem {| localName := localName d;
              attributes := attributes d;
              style := assoc_set name value (style d);
              onclick := onclick d |} kids
  end.

Definition set_onclick (f : Handler) (n : Node) : Node :=
  match n with
  | Text _ => n
  | Elem d kids =>
      Elem {| localName := localName d;
              attributes := attributes d;
              style := style d;
              onclick := Some f |} kids
  end.

Definition entityHeaderSelector : Compound :=
  {| sel_tag := None; sel_attrs := [("data-testid", "entityHeader")] |}%string.

Definition headerSelector : Compound :=
  {| sel_tag := Some "header"; sel_attrs := [] |}%string.

Definition export_btn_id : string := "export-songs-btn".

(** Lines 24 to 34: the button before it is attached. *)
Definition new_button : Node :=
  let btn := createElement "button" in
  let btn := set_id export_btn_id btn in
  let btn := set_text (lit "Export Songs") btn in
  let btn := set_style "marginLeft" "16px" btn in
  let btn := set_style "padding" "8px 16px" btn in
  let btn := set_style "background" "#1db954" btn in
  let btn := set_style "color" "#fff" btn in
  let btn := set_style "border" "none" btn in
  let btn := set_style "borderRadius" "20px" btn in
  let btn := set_style "cursor" "pointer" btn in
  set_onclick HandlerExportSongs btn.

Definition addExportButton (doc : Node) : Node :=
  match getElementById export_btn_id doc with
  | Some _ => doc
  | None =>
      match orElse (querySelector entityHeaderSelector doc)
                   (querySelector headerSelector doc) with
      | None => doc
      | Some header => appendChild header new_button doc
      end
  end.

(** The trigger controls present in a document. *)
Definition count_triggers (doc : Node) : nat :=
  count_elems (has_id export_btn_id) doc.

(** Lines 122 to 125, for a page whose changes all add or remove nodes
    under the body, the mutations to which the observer is subscribed
    (childList, subtree): the button is added at once, and again after
    every such change.  [observe] below is the general case. *)
Definition watch (changes : list (Node -> Node)) (doc : Node) : Node :=
  fold_left (fun d change => addExportButton (change d)) changes (addExportButton doc).

(** Attributes and text rewritten in place, node by node; no node is
    added or removed. *)
Fixpoint relabel (attrs : Path -> ElemData -> ElemData)
         (text : Path -> jsstring -> jsstring) (here : Path) (n : Node) : Node :=
  match n with
  | Text s => Text (text here s)
  | Elem d kids =>
      Elem (attrs here d)
           ((fix go (i : nat) (ks : list Node) : list Node :=
               match ks with
               | [] => []
               | k :: ks' => relabel attrs text (here ++ [i]) k :: go (S i) ks'
               end) 0 kids)
  end.

(** What the page does to the document in one task: it adds or removes
    nodes (and may rewrite others), or it only rewrites attributes and text
    in place.  The observer of line 123 asks for childList records only, so
    its callback runs after the first kind of change and not after the
    second. *)
Inductive Change : Type :=
| ChildList (f : Node -> Node)
| InPlace (attrs : Path -> ElemData -> ElemData) (text : Path -> jsstring -> jsstring).

Definition apply_change (d : Node) (change : Change) : Node :=
  match change with
  | ChildList f => addExportButton (f d)
  | InPlace attrs text => relabel attrs text [] d
  end.

(** Lines 122 to 125: the call made at once, then the observer at work. *)
Definition observe (changes : list Change) (doc : Node) : Node :=
  fold_left apply_change changes (addExportButton doc).

(** Document order on paths: an element comes before its descendants and
    before everything under its later siblings. *)
Fixpoint before (p q : Path) : bool :=
  match p, q with
  | [], [] => false
  | [], _ :: _ => true
  | _ :: _, [] => false
  | i :: p', j :: q' => (i <? j) || ((i =? j) && before p' q')
  end.

Fixpoint assoc_remove (name : string) (l : list (string * string))
  : list (string * string) :=
  match l with
  | [] => []
  | (k, v) :: l' =>
      if String.eqb k name then assoc_remove name l' else (k, v) :: assoc_remove name l'
  end.

(** [el.disabled = b]: the boolean attribute is set or removed. *)
Definition set_disabled_attribute (b : bool) (n : Node) : Node :=
  match n with
  | Text _ => n
  | Elem d kids =>
      Elem {| localName := localName d;
              attributes := if b then assoc_set "disabled" "" (attributes d)
                            else assoc_remove "disabled" (attributes d);
              style := style d;
              onclick := onclick d |} kids
  end.

Fixpoint update_at (path : Path) (f : Node -> Node) (n : Node) : Node :=
  match path with
  | [] => f n
  | i :: rest =>
      match n with
      | Text _ => n
      | Elem d kids => Elem d (update_nth i (update_at rest f) kids)
      end
  end.

(** Lines 88 to 90 on the document: the element with the id of the
    control gets the busy label and is disabled. *)
Definition begin_cycle (doc : Node) : Node :=
  match getElementById export_btn_id doc with
  | Some btn =>
      update_at btn
        (fun n => set_disabled_attribute true (set_text (lit "Exporting...") n)) doc
  | None => doc
  end.

(** A playlist page before the script has run, and a page without header. *)
Definition playlist_document : Node :=
  Elem {| localName := "body"; attributes := []; style := []; onclick := None |}
    [ Elem {| localName := "div"; attributes := [("data-testid", "entityHeader")];
              style := []; onclick := None |}
        [ Elem {| localName := "h1"; attributes := []; style := []; onclick := None |}
            [Text (lit "Liked Songs")] ];
      Elem {| localName := "div"; attributes := [("data-testid", "track-list")];
              style := []; onclick := None |} [] ].

Definition bare_document : Node :=
  Elem {| localName := "body"; attributes := []; style := []; onclick := None |} [].

(** The control as [exportSongs] reads and writes it. *)
Definition to_button (n : Node) : Button :=
  {| btn_textContent := node_text n;
     btn_disabled := match n with
                     | Elem d _ =>
                         match getAttribute "disabled" d with
                         | Some _ => true
                         | None => false
                         end
                     | Text _ => false
                     end |}.

(** The trigger control that the document holds, if any. *)
Definition control_in (doc : Node) : option Button :=
  match getElementById export_btn_id doc with
  | Some btn => option_map to_button (node_at btn doc)
  | None => None
  end.

(** A page with two entity headers behind a banner, and a page whose
    header is not marked as one yet. *)
Definition two_header_document : Node :=
  Elem {| localName := "body"; attributes := []; style := []; onclick := None |}
    [ Elem {| localName := "header"; attributes := []; style := []; onclick := None |} [];
      Elem {| localName := "section"; attributes := [("data-testid", "entityHeader")];
              style := []; onclick := None |} [Text (lit "Liked Songs")];
      Elem {| localName := "section"; attributes := [("data-testid", "entityHeader")];
              style := []; onclick := None |} [] ].

Definition unmarked_document : Node :=
  Elem {| localName := "body"; attributes := []; style := []; onclick := None |}
    [ Elem {| localName := "div"; attributes := []; style := []; onclick := None |} [] ].

(** The attribute change that marks the first child as the entity header. *)
Definition mark_header (here : Path) (d : ElemData) : ElemData :=
  match here with
  | [0] => {| localName := localName d;
              attributes := assoc_set "data-testid" "entityHeader" (attributes d);
              style := style d;
              onclick := onclick d |}
  | _ => d
  end.

End Dom.

(** ** Notions the statements are phrased in *)

(** Reading this element throws. *)
Definition element_raises (e : Element) : bool :=
  match textContent e with
  | Normal _ => false
  | Throw => true
  end.

(** Some read that [extractSongs] makes on this row throws. *)
Definition raises (row : Row) : bool :=
  match querySelector row titleSelector with
  | Throw => true
  | Normal titleDiv =>
      match titleDiv with
      | Some el => element_raises el
      | None => false
      end
      || match querySelectorAll row artistSelector with
         | Throw => true
         | Normal artistLinks => existsb element_raises artistLinks
         end
  end.

Definition well_formed (row : Row) : bool := negb (raises row).

(** The row count that poll number [r] (counted from 1) observes. *)
Definition observed (h : Host) (r : nat) : nat := length (rows_at h r).

(** The count the loop remembers after [r] polls; before the first poll it
    is the initial value of [lastCount]. *)
Definition seen (obs : nat -> nat) (r : nat) : nat :=
  match r with
  | 0 => 0
  | S _ => obs r
  end.

(** The same-count streak after [r] polls of a loop that has not stopped. *)
Fixpoint streak (obs : nat -> nat) (r : nat) : nat :=
  match r with
  | 0 => 0
  | S r' => if obs (S r') =? seen obs r' then S (streak obs r') else 0
  end.

(** Polls [r-4] to [r] all saw the same count, poll 0 standing for the
    initial [lastCount]. *)
Definition stable_window (obs : nat -> nat) (r : nat) : Prop :=
  4 <= r /\ forall j, j < 4 -> obs (r - j) = seen obs (r - j - 1).

(** The events of poll number [r], and of [n] polls after [t] of them. *)
Definition poll_events (h : Host) (c : Container) (r : nat) : list Event :=
  [EvScrollTo c; EvSleep 700; EvCountRows (observed h r)].

Definition polls (h : Host) (c : Container) (t n : nat) : list Event :=
  flat_map (poll_events h c) (seq (S t) n).

(** The machine [n] polls later. *)
Definition advance (h : Host) (c : Container) (n : nat) (m : Machine) : Machine :=
  {| btn := btn m; clock := clock m + n; trace := trace m ++ polls h c (clock m) n |}.

(** Scroll triggers of a finished run. *)
Definition scroll_triggers (r : completion unit * Machine) : nat :=
  count is_scroll (trace (snd r)).

(** The strings that a snapshot contributes, row by row. *)
Definition pushed (row : Row) : list jsstring :=
  match read_row row with
  | Normal line => [line]
  | Throw => []
  end.

(** What [exportSongs] does once it holds [songs]. *)
Definition finish_events (h : Host) (songs : list jsstring) : list Event :=
  if length songs =? 0 then
    [EvAlert noSongsMessage; EvSetTextContent (lit "Export Songs"); EvSetDisabled false]
  else
    [ (if GM_setClipboard_defined h
       then EvGMSetClipboard (join LF songs)
       else EvNavigatorClipboard (join LF songs));
      EvDownload (lit "spotify_songs.txt") (lit "text/plain") (join LF songs);
      EvAlert (exportedMessage (length songs));
      EvSetTextContent (lit "Export Songs");
      EvSetDisabled false ].

Definition busy : Button :=
  {| btn_textContent := lit "Exporting..."; btn_disabled := true |}.

Definition ready : Button :=
  {| btn_textContent := lit "Export Songs"; btn_disabled := false |}.

(** The machine on which the loop of [scrollToLoadAllSongs] starts. *)
Definition collecting : Machine :=
  {| btn := busy;
     clock := 0;
     trace := [EvSetTextContent (lit "Exporting..."); EvSetDisabled true] |}.

(** What [extractSongs] returns on the rows shown after [t] poll delays. *)
Definition songs_at (h : Host) (t : nat) : list jsstring :=
  flat_map pushed (rows_at h t).

(** The trace of a cycle whose scroll phase logged [collected] and took
    [t] poll delays. *)
Definition export_trace (h : Host) (collected : list Event) (t : nat) : list Event :=
  [EvSetTextContent (lit "Exporting..."); EvSetDisabled true]
  ++ collected
  ++ EvExtractSongs (songs_at h t) :: finish_events h (songs_at h t).

(** Rows and pages to evaluate the script on. *)
Definition element (s : string) : Element := {| textContent := Normal (lit s) |}.

Definition broken_element : Element := {| textContent := Throw |}.

Definition mk_row (title : completion (option Element))
           (artists : completion (list Element)) : Row :=
  {| querySelector := fun sel =>
       if selector_eqb sel titleSelector then title else Normal None;
     querySelectorAll := fun sel =>
       if selector_eqb sel artistSelector then artists else Normal [] |}.

Definition song_row (title : string) (artists : list string) : Row :=
  mk_row (Normal (Some (element title))) (Normal (map element artists)).

Definition untitled_row (artists : list string) : Row :=
  mk_row (Normal None) (Normal (map element artists)).

Definition recycled_row : Row := mk_row Throw (Normal []).

Definition sample_row : Row := song_row "Wake Me Up" ["Avicii"].

(** A page that shows [count t] rows after [t] poll delays; its scroll
    container, if any, is the one with the test id track-list. *)
Definition page (container : bool) (count : nat -> nat) : Host :=
  {| document_querySelector := fun sel =>
       if container && selector_eqb sel trackListSelector then Some 7 else None;
     rows_at := fun t => repeat sample_row (count t);
     GM_setClipboard_defined := true |}.

(** Eight more rows per poll, then 37 rows from the fifth poll on. *)
Definition loading_page : Host := page true (fun t => if t <? 5 then 8 * t else 37).

(** One more row at every poll, for ever. *)
Definition growing_page : Host := page true (fun t => t).

(** The same number of rows at every moment. *)
Definition constant_page (n : nat) : Host := page true (fun _ => n).

(** Rows but no scroll container that the script recognises. *)
Definition stray_page : Host := page false (fun _ => 2).

(** Neither container nor rows. *)
Definition blank_page : Host := page false (fun _ => 0).

(** The streak stays within 3 on polls 1 to [n]. *)
Definition streak_bounded (obs : nat -> nat) (n : nat) : bool :=
  forallb (fun r => streak obs r <=? 3) (seq 1 n).

(** The export cycle gives up when no scroll container is found: no
    round, the alert, and neither extraction nor output. *)
Definition aborts_without_container : Prop :=
  forall (h : Host) (b : Button),
    find_scrollContainer h = None ->
    let tr := trace (snd (run_export h b)) in
    count is_scroll tr = 0
    /\ In (EvAlert containerNotFoundMessage) tr
    /\ count is_extract tr = 0
    /\ count is_clipboard tr = 0
    /\ count is_download tr = 0.

(** What [exportSongs] does between the extraction and the restoring of
    the control. *)
Definition outcome_events (h : Host) (songs : list jsstring) : list Event :=
  if length songs =? 0 then [EvAlert noSongsMessage]
  else
    [ (if GM_setClipboard_defined h
       then EvGMSetClipboard (join LF songs)
       else EvNavigatorClipboard (join LF songs));
      EvDownload (lit "spotify_songs.txt") (lit "text/plain") (join LF songs);
      EvAlert (exportedMessage (length songs)) ].

Definition restore_events : list Event :=
  [EvSetTextContent (lit "Export Songs"); EvSetDisabled false].

(** ** Notions for the further properties *)

(** The string neither starts nor ends with a code unit that [trim]
    removes. *)
Definition starts_clean (s : jsstring) : bool :=
  match s with
  | [] => true
  | c :: _ => negb (isWhiteSpace c)
  end.

Definition edge_free (s : jsstring) : bool :=
  starts_clean s && starts_clean (rev s).

(** Line feeds in a string. *)
Definition line_feeds (s : jsstring) : nat := count_occ N.eq_dec s 10%N.

(** Projections of a trace: the alerts in order, the milliseconds slept,
    the containers scrolled, the row counts polled, the clipboard writes
    (with [true] for [GM_setClipboard]) and the downloads. *)
Definition alerts (events : list Event) : list jsstring :=
  flat_map (fun e => match e with EvAlert msg => [msg] | _ => [] end) events.

Definition slept (events : list Event) : nat :=
  list_sum (flat_map (fun e => match e with EvSleep ms => [ms] | _ => [] end) events).

Definition scrolled (events : list Event) : list Container :=
  flat_map (fun e => match e with EvScrollTo c => [c] | _ => [] end) events.

Definition polled (events : list Event) : list nat :=
  flat_map (fun e => match e with EvCountRows n => [n] | _ => [] end) events.

Definition clipboard_writes (events : list Event) : list (bool * jsstring) :=
  flat_map (fun e => match e with
                     | EvGMSetClipboard text => [(true, text)]
                     | EvNavigatorClipboard text => [(false, text)]
                     | _ => []
                     end) events.

Definition downloads (events : list Event) : list (jsstring * jsstring * jsstring) :=
  flat_map (fun e => match e with
                     | EvDownload name mime text => [(name, mime, text)]
                     | _ => []
                     end) events.

(** The notice that ends a cycle holding [songs]. *)
Definition outcome_message (songs : list jsstring) : jsstring :=
  if length songs =? 0 then noSongsMessage else exportedMessage (length songs).

(** The element that [addExportButton] takes for the header. *)
Definition find_header (doc : Dom.Node) : option Dom.Path :=
  orElse (Dom.querySelector Dom.entityHeaderSelector doc)
         (Dom.querySelector Dom.headerSelector doc).

(** One call of [addExportButton] adds to the elements that satisfy [p]
    just those of the new button. *)
Definition count_elems_grows (p : Dom.ElemData -> bool) (doc : Dom.Node) : Prop :=
  Dom.count_elems p (Dom.addExportButton doc)
  = Dom.count_elems p doc + Dom.count_elems p Dom.new_button.

(** A page with a banner before its entity header, and a page that rebuilds
    its header. *)
Definition banner_document : Dom.Node :=
  Dom.Elem {| Dom.localName := "body"; Dom.attributes := []; Dom.style := [];
              Dom.onclick := None |}
    [ Dom.Elem {| Dom.localName := "header"; Dom.attributes := []; Dom.style := [];
                  Dom.onclick := None |} [];
      Dom.Elem {| Dom.localName := "main"; Dom.attributes := []; Dom.style := [];
                  Dom.onclick := None |}
        [ Dom.Elem {| Dom.localName := "div";
                      Dom.attributes := [("data-testid", "entityHeader")];
                      Dom.style := []; Dom.onclick := None |}
            [Dom.Text (lit "Liked Songs")] ] ].

(** A page whose rows are partly unreadable: every third row throws. *)
Definition churning_page : Host :=
  {| document_querySelector := fun sel =>
       if selector_eqb sel presentationSelector then Some 1
       else if selector_eqb sel trackListSelector then Some 3 else None;
     rows_at := fun t =>
       map (fun i => if i mod 3 =? 0 then recycled_row else sample_row)
           (seq 0 (Nat.min t 6));
     GM_setClipboard_defined := false |}.

(** With equal counts at polls 5 to 9 the loop stops after round 9. *)
Definition stops_after_round_nine : Prop :=
  forall (h : Host) (c : Container) (b : Button),
    find_scrollContainer h = Some c ->
    (forall r, 5 <= r < 9 -> observed h r = observed h (S r)) ->
    scroll_triggers (run_export h b) = 9.

(** While a cycle is under way, its control made busy, a click on the
    trigger control that the page holds starts nothing, whatever the page
    has done to the document in the meantime and the observer after it. *)
Definition no_overlapping_runs : Prop :=
  forall (h : Host) (doc : Dom.Node) (f : Dom.Node -> Dom.Node) (b : Button),
    Dom.control_in (Dom.begin_cycle doc) = Some busy ->
    Dom.control_in (Dom.addExportButton (f (Dom.begin_cycle doc))) = Some b ->
    click h b = None.

(** * Properties *)

(** ** Row parser *)

Section Parser.

Lemma array_map_throw {A B} (f : A -> completion B) (xs : list A) :
  array_map f xs = Throw <-> exists x, In x xs /\ f x = Throw.
Proof.
  induction xs as [|x xs IH]; simpl.
  - split; [discriminate | intros (x & [] & _)].
  - destruct (f x) eqn:Hx; simpl.
    + destruct (array_map f xs) eqn:Hxs; simpl.
      * split; [discriminate|].
        intros (y & [<- | Hy] & Hf); [congruence|].
        assert (Normal a0 = @Throw (list B)) as E by (apply IH; eauto).
        discriminate.
      * split; [|reflexivity]. intros _.
        destruct IH as [IH _]. destruct (IH eq_refl) as (y & Hy & Hf). eauto.
    + split; [|reflexivity]. intros _. exists x. auto.
Qed.

Lemma read_text_throw (e : Element) :
  (t <- textContent e ;; Normal (trim t))%completion = Throw
  <-> element_raises e = true.
Proof.
  unfold element_raises. destruct (textContent e); simpl; split; congruence.
Qed.

Lemma read_title_throw (row : Row) :
  read_title row = Throw
  <-> match querySelector row titleSelector with
      | Throw => true
      | Normal (Some el) => element_raises el
      | Normal None => false
      end = true.
Proof.
  unfold read_title.
  destruct (querySelector row titleSelector) as [[el|]|]; simpl.
  - apply read_text_throw.
  - split; discriminate.
  - tauto.
Qed.

Lemma read_artist_names_throw (row : Row) :
  read_artist_names row = Throw
  <-> match querySelectorAll row artistSelector with
      | Throw => true
      | Normal artistLinks => existsb element_raises artistLinks
      end = true.
Proof.
  unfold read_artist_names.
  destruct (querySelectorAll row artistSelector) as [links|]; simpl; [|tauto].
  rewrite array_map_throw, existsb_exists.
  split; intros (x & Hin & Hx); exists x; split; auto; apply read_text_throw; auto.
Qed.

Lemma read_row_raises (row : Row) :
  read_row row = Throw <-> raises row = true.
Proof.
  assert (raises row = true
          <-> read_title row = Throw \/ read_artist_names row = Throw) as ->.
  { rewrite read_title_throw, read_artist_names_throw. unfold raises.
    destruct (querySelector row titleSelector) as [[el|]|]; simpl.
    - rewrite orb_true_iff. tauto.
    - intuition discriminate.
    - tauto. }
  unfold read_row.
  destruct (read_title row) as [title|]; simpl; [|tauto].
  destruct (read_artist_names row) as [names|]; simpl; [|tauto].
  intuition discriminate.
Qed.

Lemma pushed_raises (row : Row) : raises row = true -> pushed row = [].
Proof.
  intros H. apply read_row_raises in H. unfold pushed. now rewrite H.
Qed.

Lemma pushed_well_formed (row : Row) :
  well_formed row = true -> exists line, read_row row = Normal line /\ pushed row = [line].
Proof.
  unfold well_formed, pushed. intros H.
  destruct (read_row row) as [line|] eqn:E; [eauto|].
  apply read_row_raises in E. rewrite E in H. discriminate.
Qed.

Lemma forEach_extract (rows : list Row) (acc : list jsstring) :
  forEach extract_callback rows acc = Normal (acc ++ flat_map pushed rows).
Proof.
  revert acc. induction rows as [|row rows IH]; intros acc; simpl.
  - now rewrite app_nil_r.
  - unfold extract_callback at 1, pushed at 1.
    destruct (read_row row) as [line|]; simpl.
    + rewrite IH. now rewrite <- app_assoc.
    + apply IH.
Qed.

Lemma extractSongs_pushed (rows : list Row) :
  extractSongs rows = Normal (flat_map pushed rows).
Proof. unfold extractSongs. now rewrite forEach_extract. Qed.

Lemma pushed_length (rows : list Row) :
  length (flat_map pushed rows) = length (filter well_formed rows).
Proof.
  induction rows as [|row rows IH]; simpl; [reflexivity|].
  rewrite length_app, IH. unfold well_formed at 2.
  destruct (raises row) eqn:E; simpl.
  - now rewrite (pushed_raises _ E).
  - destruct (@pushed_well_formed row) as (line & _ & ->); [unfold well_formed; now rewrite E|].
    reflexivity.
Qed.

Lemma filter_partition_length (rows : list Row) :
  length rows = length (filter well_formed rows) + length (filter raises rows).
Proof.
  induction rows as [|row rows IH]; simpl; [reflexivity|].
  unfold well_formed at 1. destruct (raises row); simpl; lia.
Qed.

Lemma pushed_in_order (rows : list Row) :
  Forall2 (fun row line => read_row row = Normal line)
          (filter well_formed rows) (flat_map pushed rows).
Proof.
  induction rows as [|row rows IH]; simpl; [constructor|].
  destruct (well_formed row) eqn:E.
  - destruct (pushed_well_formed _ E) as (line & Hr & ->). simpl.
    constructor; assumption.
  - unfold well_formed in E. apply negb_false_iff in E.
    now rewrite (pushed_raises _ E).
Qed.

Lemma extractSongs_around (pre post : list Row) (row : Row) :
  extractSongs (pre ++ row :: post)
  = Normal (flat_map pushed pre ++ pushed row ++ flat_map pushed post).
Proof. rewrite extractSongs_pushed, flat_map_app. reflexivity. Qed.

Example extractSongs_sample :
  extractSongs [song_row " Wake Me Up " ["Avicii"]; recycled_row;
                song_row "Tsunami" ["DVBBS"; " Borgeous"]; untitled_row []]
  = Normal [lit "Wake Me Up - Avicii"; lit "Tsunami - DVBBS, Borgeous";
            lit "[Unknown Title] - "].
Proof. reflexivity. Qed.

(** C3. On a snapshot of N rows, M of them well formed and N - M raising
    while they are read, [extractSongs] completes normally with exactly M
    strings, one per well-formed row and in the order of the snapshot; a
    raising row changes nothing for the rows around it. *)
Theorem extractSongs_keeps_well_formed_rows (rows : list Row) :
  exists records,
    extractSongs rows = Normal records
    /\ length records = length (filter well_formed rows)
    /\ length rows = length records + length (filter raises rows)
    /\ Forall2 (fun row line => read_row row = Normal line)
               (filter well_formed rows) records
    /\ (forall pre bad post,
          rows = pre ++ bad :: post -> raises bad = true ->
          extractSongs (pre ++ post) = Normal records).
Proof.
  exists (flat_map pushed rows).
  split; [apply extractSongs_pushed|].
  split; [apply pushed_length|].
  split; [rewrite pushed_length; apply filter_partition_length|].
  split; [apply pushed_in_order|].
  intros pre bad post -> Hbad.
  rewrite extractSongs_pushed, !flat_map_app. simpl.
  now rewrite (pushed_raises _ Hbad).
Qed.

Lemma extractSongs_keeps_well_formed_rows_witness :
  exists records,
    extractSongs [song_row "Levels" ["Avicii"]; recycled_row; untitled_row []]
    = Normal records
    /\ length records = 2
    /\ extractSongs [song_row "Levels" ["Avicii"]; untitled_row []] = Normal records.
Proof.
  destruct (extractSongs_keeps_well_formed_rows
              [song_row "Levels" ["Avicii"]; recycled_row; untitled_row []])
    as (records & Hrun & Hlen & _ & _ & Hskip).
  exists records. split; [exact Hrun|]. split; [exact Hlen|].
  exact (Hskip [song_row "Levels" ["Avicii"]] recycled_row [untitled_row []]
               eq_refl eq_refl).
Defined.

(** C5. A row read as title T and artists [A1, A2] contributes exactly the
    line T - A1, A2 to the result, and a row read as title T with no artist
    field still contributes a line, exactly T followed by the separator. *)
Theorem serialized_line (pre post : list Row) (row : Row) (T A1 A2 : jsstring) :
  read_title row = Normal T ->
  (read_artist_names row = Normal [A1; A2] ->
   extractSongs (pre ++ row :: post)
   = Normal (flat_map pushed pre
             ++ (T ++ lit " - " ++ A1 ++ lit ", " ++ A2) :: flat_map pushed post))
  /\ (read_artist_names row = Normal [] ->
      extractSongs (pre ++ row :: post)
      = Normal (flat_map pushed pre ++ (T ++ lit " - ") :: flat_map pushed post)).
Proof.
  intros HT.
  split; intros HA; rewrite extractSongs_around; unfold pushed at 2, read_row;
    rewrite HT, HA; simpl; rewrite ?app_nil_r; reflexivity.
Qed.

Lemma serialized_line_witness :
  extractSongs [song_row "Tsunami" ["DVBBS"; "Borgeous"]]
  = Normal [lit "Tsunami - DVBBS, Borgeous"]
  /\ extractSongs [song_row "Intro" []] = Normal [lit "Intro - "].
Proof.
  split.
  - exact (proj1 (@serialized_line [] [] (song_row "Tsunami" ["DVBBS"; "Borgeous"])
                    (lit "Tsunami") (lit "DVBBS") (lit "Borgeous") eq_refl) eq_refl).
  - exact (proj2 (@serialized_line [] [] (song_row "Intro" [])
                    (lit "Intro") [] [] eq_refl) eq_refl).
Defined.

Lemma join_spelled (sep : jsstring) (names : list jsstring) :
  join sep names
  = match names with
    | [] => []
    | first :: rest => first ++ concat (map (fun name => sep ++ name) rest)
    end.
Proof.
  induction names as [|x [|y rest] IH]; [reflexivity|simpl; now rewrite app_nil_r|].
  change (join sep (x :: y :: rest)) with (x ++ sep ++ join sep (y :: rest)).
  rewrite IH. cbn [map concat]. now rewrite <- app_assoc.
Qed.

Lemma array_map_texts (links : list Element) (texts : list jsstring) :
  Forall2 (fun a t => textContent a = Normal t) links texts ->
  array_map (fun a => t <- textContent a ;; Normal (trim t))%completion links
  = Normal (map trim texts).
Proof.
  induction 1 as [|a t links texts Ha _ IH]; [reflexivity|].
  simpl. rewrite Ha. simpl. rewrite IH. reflexivity.
Qed.

(** C6. A row whose title element is absent is kept: its line is the
    title [Unknown Title] in brackets, the separator, and the trimmed texts
    of its artist links, each after the first preceded by a comma and a
    space.  The sentinel is used for nothing else: a present title element
    gives its trimmed text, and a row on which any read raises is dropped
    whole. *)
Theorem missing_title_sentinel (pre post : list Row) (row : Row) :
  (forall links texts,
      querySelector row titleSelector = Normal None ->
      querySelectorAll row artistSelector = Normal links ->
      Forall2 (fun a t => textContent a = Normal t) links texts ->
      extractSongs (pre ++ row :: post)
      = Normal (flat_map pushed pre
                ++ (code_units "[Unknown Title] - "
                    ++ match map trim texts with
                       | [] => []
                       | first :: rest =>
                           first ++ concat (map (fun name => code_units ", " ++ name) rest)
                       end)
                   :: flat_map pushed post))
  /\ (forall names,
        querySelector row titleSelector = Normal None ->
        read_artist_names row = Normal names ->
        extractSongs (pre ++ row :: post)
        = Normal (flat_map pushed pre
                  ++ (lit "[Unknown Title]" ++ lit " - " ++ join (lit ", ") names)
                     :: flat_map pushed post))
  /\ (forall el t,
        querySelector row titleSelector = Normal (Some el) ->
        textContent el = Normal t ->
        read_title row = Normal (trim t))
  /\ (raises row = true ->
      extractSongs (pre ++ row :: post)
      = Normal (flat_map pushed pre ++ flat_map pushed post)).
Proof.
  assert (forall names,
             querySelector row titleSelector = Normal None ->
             read_artist_names row = Normal names ->
             extractSongs (pre ++ row :: post)
             = Normal (flat_map pushed pre
                       ++ (lit "[Unknown Title]" ++ lit " - " ++ join (lit ", ") names)
                          :: flat_map pushed post)) as Hnames.
  { intros names Hq Hn. rewrite extractSongs_around.
    unfold pushed at 2, read_row, read_title. rewrite Hq. simpl. rewrite Hn.
    reflexivity. }
  split; [|split; [exact Hnames|split]].
  - intros links texts Hq Hlinks Htexts.
    rewrite (Hnames (map trim texts) Hq).
    + rewrite join_spelled. reflexivity.
    + unfold read_artist_names. rewrite Hlinks. simpl. now apply array_map_texts.
  - intros el t Hq Ht. unfold read_title. rewrite Hq. simpl. now rewrite Ht.
  - intros Hr. rewrite extractSongs_around, (pushed_raises _ Hr). reflexivity.
Qed.

Lemma missing_title_sentinel_witness :
  extractSongs [untitled_row ["Avicii"; " Aloe Blacc"; "Tim Bergling "]]
  = Normal [code_units "[Unknown Title] - Avicii, Aloe Blacc, Tim Bergling"]
  /\ extractSongs [untitled_row []] = Normal [code_units "[Unknown Title] - "]
  /\ read_title (song_row " Levels " ["Avicii"]) = Normal (code_units "Levels")
  /\ extractSongs [mk_row (Normal None) (Normal [broken_element])] = Normal [].
Proof.
  split; [|split; [|split]].
  - apply (proj1 (@missing_title_sentinel [] []
                    (untitled_row ["Avicii"; " Aloe Blacc"; "Tim Bergling "]))
             [element "Avicii"; element " Aloe Blacc"; element "Tim Bergling "]
             [lit "Avicii"; lit " Aloe Blacc"; lit "Tim Bergling "]);
      [reflexivity|reflexivity|repeat constructor].
  - apply (proj1 (@missing_title_sentinel [] [] (untitled_row [])) [] []);
      [reflexivity|reflexivity|constructor].
  - exact (proj1 (proj2 (proj2 (@missing_title_sentinel [] []
                                  (song_row " Levels " ["Avicii"]))))
             (element " Levels ") (lit " Levels ") eq_refl eq_refl).
  - exact (proj2 (proj2 (proj2 (@missing_title_sentinel [] []
                                  (mk_row (Normal None) (Normal [broken_element])))))
             eq_refl).
Defined.

End Parser.

(** ** Collection loop *)

Arguments lit : simpl never.
Arguments of_length : simpl never.
Arguments exportedMessage : simpl never.
Arguments scroll_loop : simpl never.

Section Collector.

Variable h : Host.
Variable c : Container.

Let obs := observed h.

Lemma polls_S (t n : nat) :
  polls h c t (S n) = poll_events h c (S t) ++ polls h c (S t) n.
Proof. reflexivity. Qed.

Lemma polls_add (t a b : nat) :
  polls h c t (a + b) = polls h c t a ++ polls h c (t + a) b.
Proof.
  unfold polls. rewrite seq_app, flat_map_app. reflexivity.
Qed.

Lemma advance_0 (m : Machine) : advance h c 0 m = m.
Proof.
  destruct m as [b t tr]. unfold advance. simpl.
  now rewrite Nat.add_0_r, app_nil_r.
Qed.

Lemma advance_add (a b : nat) (m : Machine) :
  advance h c b (advance h c a m) = advance h c (a + b) m.
Proof.
  unfold advance. simpl. rewrite polls_add, app_assoc, Nat.add_assoc. reflexivity.
Qed.

Lemma scroll_loop_step (k lastCount sameCountTimes : nat) (m : Machine) :
  scroll_loop h c (S k) lastCount sameCountTimes m
  = let m1 := advance h c 1 m in
    let n := obs (S (clock m)) in
    if n =? lastCount then
      if 3 <? S sameCountTimes then (Normal tt, m1)
      else scroll_loop h c k n (S sameCountTimes) m1
    else scroll_loop h c k n 0 m1.
Proof.
  assert (advance h c 1 m
          = {| btn := btn m; clock := S (clock m);
               trace := (((trace m ++ [EvScrollTo c]) ++ [EvSleep 700])
                         ++ [EvCountRows (obs (S (clock m)))]) |}) as ->.
  { unfold advance. rewrite Nat.add_1_r, polls_S. unfold polls, poll_events.
    simpl. rewrite <- !app_assoc. reflexivity. }
  unfold scroll_loop; fold scroll_loop.
  unfold bind, scrollTo, sleep, document_rows, emit. simpl.
  fold (observed h (S (clock m))). fold obs.
  destruct (obs (S (clock m)) =? lastCount); [|reflexivity].
  destruct sameCountTimes as [|[|[|s]]]; reflexivity.
Qed.

Lemma streak_S (r : nat) :
  streak obs (S r) = if obs (S r) =? seen obs r then S (streak obs r) else 0.
Proof. reflexivity. Qed.

Lemma clock_advance_1 (m : Machine) : clock (advance h c 1 m) = S (clock m).
Proof. unfold advance. simpl. lia. Qed.

(** The state in which the next round starts, in terms of the streak. *)
Lemma next_same (m : Machine) (fuel : nat) :
  (obs (S (clock m)) =? seen obs (clock m)) = true ->
  scroll_loop h c fuel (obs (S (clock m))) (S (streak obs (clock m))) (advance h c 1 m)
  = scroll_loop h c fuel (seen obs (clock (advance h c 1 m)))
      (streak obs (clock (advance h c 1 m))) (advance h c 1 m).
Proof.
  intros E. rewrite clock_advance_1, streak_S, E. reflexivity.
Qed.

Lemma next_reset (m : Machine) (fuel : nat) :
  (obs (S (clock m)) =? seen obs (clock m)) = false ->
  scroll_loop h c fuel (obs (S (clock m))) 0 (advance h c 1 m)
  = scroll_loop h c fuel (seen obs (clock (advance h c 1 m)))
      (streak obs (clock (advance h c 1 m))) (advance h c 1 m).
Proof.
  intros E. rewrite clock_advance_1, streak_S, E. reflexivity.
Qed.

(** The loop leaves at the first poll whose streak exceeds 3. *)
Lemma scroll_loop_break (fuel : nat) :
  forall (m : Machine) (k : nat),
    clock m < k -> k <= clock m + fuel ->
    (forall r, clock m < r < k -> streak obs r <= 3) ->
    3 < streak obs k ->
    scroll_loop h c fuel (seen obs (clock m)) (streak obs (clock m)) m
    = (Normal tt, advance h c (k - clock m) m).
Proof.
  induction fuel as [|fuel IH]; intros m k Hlt Hle Hbefore Hk; [lia|].
  rewrite scroll_loop_step. cbv zeta.
  pose proof (clock_advance_1 m) as Hclock.
  pose proof (streak_S (clock m)) as HS.
  destruct (obs (S (clock m)) =? seen obs (clock m)) eqn:E.
  - destruct (3 <? S (streak obs (clock m))) eqn:E3.
    + apply Nat.ltb_lt in E3.
      assert (k = S (clock m)) as ->.
      { destruct (Nat.eq_dec k (S (clock m))) as [|Hne]; [assumption|].
        specialize (Hbefore (S (clock m))). lia. }
      do 2 f_equal. lia.
    + apply Nat.ltb_ge in E3.
      assert (S (clock m) < k) as Hlt'.
      { destruct (Nat.eq_dec k (S (clock m))) as [->|Hne]; lia. }
      rewrite (@next_same m fuel E).
      rewrite (IH _ k); rewrite ?Hclock; try lia.
      * rewrite advance_add. do 2 f_equal. lia.
      * intros r Hr. apply Hbefore. lia.
  - assert (S (clock m) < k) as Hlt'.
    { destruct (Nat.eq_dec k (S (clock m))) as [->|Hne]; lia. }
    rewrite (@next_reset m fuel E).
    rewrite (IH _ k); rewrite ?Hclock; try lia.
    + rewrite advance_add. do 2 f_equal. lia.
    + intros r Hr. apply Hbefore. lia.
Qed.

(** Without such a poll the loop uses all the rounds it is given. *)
Lemma scroll_loop_exhaust (fuel : nat) :
  forall (m : Machine),
    (forall r, clock m < r <= clock m + fuel -> streak obs r <= 3) ->
    scroll_loop h c fuel (seen obs (clock m)) (streak obs (clock m)) m
    = (Normal tt, advance h c fuel m).
Proof.
  induction fuel as [|fuel IH]; intros m Hall.
  - simpl. unfold ret. now rewrite advance_0.
  - rewrite scroll_loop_step. cbv zeta.
    pose proof (clock_advance_1 m) as Hclock.
    pose proof (streak_S (clock m)) as HS.
    pose proof (Hall (S (clock m)) ltac:(lia)) as H1.
    destruct (obs (S (clock m)) =? seen obs (clock m)) eqn:E.
    + destruct (3 <? S (streak obs (clock m))) eqn:E3.
      * apply Nat.ltb_lt in E3. lia.
      * rewrite (@next_same m fuel E).
        rewrite IH.
        -- rewrite advance_add. reflexivity.
        -- rewrite Hclock. intros r Hr. apply Hall. lia.
    + rewrite (@next_reset m fuel E).
      rewrite IH.
      * rewrite advance_add. reflexivity.
      * rewrite Hclock. intros r Hr. apply Hall. lia.
Qed.

(** The loop always returns, after at most the rounds it is given. *)
Lemma scroll_loop_total (fuel : nat) :
  forall (m : Machine) (lastCount sameCountTimes : nat),
  exists n, n <= fuel
            /\ scroll_loop h c fuel lastCount sameCountTimes m
               = (Normal tt, advance h c n m).
Proof.
  induction fuel as [|fuel IH]; intros m lastCount sameCountTimes.
  - exists 0. split; [lia|]. simpl. unfold ret. now rewrite advance_0.
  - rewrite scroll_loop_step. cbv zeta.
    destruct (obs (S (clock m)) =? lastCount).
    + destruct (3 <? S sameCountTimes).
      * exists 1. split; [lia|reflexivity].
      * destruct (IH (advance h c 1 m) (obs (S (clock m))) (S sameCountTimes))
          as (n & Hn & ->).
        exists (1 + n). split; [lia|]. now rewrite advance_add.
    + destruct (IH (advance h c 1 m) (obs (S (clock m))) 0) as (n & Hn & ->).
      exists (1 + n). split; [lia|]. now rewrite advance_add.
Qed.

End Collector.

(** ** The streak, read as a window of equal observations *)

Section Streak.

Variable obs : nat -> nat.

Lemma streak_ge (n : nat) :
  forall r, n <= streak obs r
            <-> n <= r /\ forall j, j < n -> obs (r - j) = seen obs (r - j - 1).
Proof.
  induction n as [|n IH]; intros r.
  - split; [intros _; split; [lia|intros j Hj; lia]|lia].
  - destruct r as [|r].
    + simpl. split; [lia|intros [H _]; lia].
    + change (streak obs (S r))
        with (if obs (S r) =? seen obs r then S (streak obs r) else 0).
      destruct (obs (S r) =? seen obs r) eqn:E.
      * apply Nat.eqb_eq in E.
        rewrite <- Nat.succ_le_mono, IH. split.
        -- intros [Hn Hall]. split; [lia|].
           intros [|j] Hj.
           ++ rewrite Nat.sub_0_r. simpl. now rewrite Nat.sub_0_r.
           ++ simpl. apply Hall. lia.
        -- intros [Hn Hall]. split; [lia|].
           intros j Hj. specialize (Hall (S j) ltac:(lia)). exact Hall.
      * apply Nat.eqb_neq in E. split; [lia|].
        intros [_ Hall]. specialize (Hall 0 ltac:(lia)).
        rewrite Nat.sub_0_r in Hall. simpl in Hall. rewrite Nat.sub_0_r in Hall.
        contradiction.
Qed.

Lemma streak_window (r : nat) : 3 < streak obs r <-> stable_window obs r.
Proof. unfold stable_window. rewrite <- (streak_ge 4 r). lia. Qed.

Lemma streak_no_window (r : nat) : streak obs r <= 3 <-> ~ stable_window obs r.
Proof. rewrite <- streak_window. lia. Qed.

End Streak.

(** ** One export cycle *)

Section ExportCycle.

Variable h : Host.

Lemma count_app (p : Event -> bool) (l1 l2 : list Event) :
  count p (l1 ++ l2) = count p l1 + count p l2.
Proof. unfold count. now rewrite filter_app, length_app. Qed.

Lemma count_polls (c : Container) (t n : nat) :
  count is_scroll (polls h c t n) = n
  /\ count is_extract (polls h c t n) = 0
  /\ count is_clipboard (polls h c t n) = 0
  /\ count is_download (polls h c t n) = 0
  /\ count is_alert (polls h c t n) = 0
  /\ count is_button_write (polls h c t n) = 0.
Proof.
  revert t. induction n as [|n IH]; intros t.
  - repeat split; reflexivity.
  - rewrite polls_S. rewrite !count_app.
    destruct (IH (S t)) as (-> & -> & -> & -> & -> & ->).
    repeat split; reflexivity.
Qed.

Lemma count_finish (songs : list jsstring) :
  count is_scroll (finish_events h songs) = 0
  /\ count is_extract (finish_events h songs) = 0.
Proof.
  unfold finish_events.
  destruct (length songs =? 0); [split; reflexivity|].
  destruct (GM_setClipboard_defined h); split; reflexivity.
Qed.

Lemma count_export_trace (c : Container) (n : nat) :
  count is_scroll (export_trace h (polls h c 0 n) n) = n
  /\ count is_extract (export_trace h (polls h c 0 n) n) = 1.
Proof.
  unfold export_trace.
  change (EvExtractSongs (songs_at h n) :: finish_events h (songs_at h n))
    with ([EvExtractSongs (songs_at h n)] ++ finish_events h (songs_at h n)).
  rewrite !count_app.
  destruct (count_polls c 0 n) as (-> & -> & _).
  destruct (count_finish (songs_at h n)) as (-> & ->).
  split; simpl; lia.
Qed.

(** From the end of the scroll phase to the end of the cycle. *)
Lemma run_export_after_collect (b : Button) (collected : list Event) (t : nat) :
  scrollToLoadAllSongs h collecting
  = (Normal tt, {| btn := busy; clock := t; trace := trace collecting ++ collected |}) ->
  run_export h b
  = (Normal tt, {| btn := ready; clock := t; trace := export_trace h collected t |}).
Proof.
  intros Hscroll.
  unfold run_export, exportSongs, start.
  unfold bind at 1. unfold set_textContent at 1. simpl.
  unfold bind at 1. unfold set_disabled at 1. simpl.
  unfold bind at 1.
  change (scrollToLoadAllSongs h _) with (scrollToLoadAllSongs h collecting).
  rewrite Hscroll.
  unfold bind at 1. unfold call_extractSongs, bind, document_rows, lift, emit, ret.
  simpl. rewrite extractSongs_pushed. fold (songs_at h t).
  unfold export_trace, finish_events.
  destruct (length (songs_at h t) =? 0).
  - unfold alert, emit, set_textContent, set_disabled. simpl.
    unfold ready. rewrite <- !app_assoc. reflexivity.
  - unfold download, alert, emit, set_textContent, set_disabled.
    destruct (GM_setClipboard_defined h); simpl;
      unfold ready; rewrite <- !app_assoc; reflexivity.
Qed.

Lemma run_export_not_found (b : Button) :
  find_scrollContainer h = None ->
  run_export h b
  = (Normal tt,
     {| btn := ready; clock := 0;
        trace := export_trace h [EvAlert containerNotFoundMessage] 0 |}).
Proof.
  intros Hnone. apply run_export_after_collect.
  unfold scrollToLoadAllSongs. rewrite Hnone. reflexivity.
Qed.

Lemma run_export_found (b : Button) (c : Container) (n : nat) :
  find_scrollContainer h = Some c ->
  scroll_loop h c 100 0 0 collecting = (Normal tt, advance h c n collecting) ->
  run_export h b
  = (Normal tt,
     {| btn := ready; clock := n; trace := export_trace h (polls h c 0 n) n |}).
Proof.
  intros Hsome Hloop. apply run_export_after_collect.
  unfold scrollToLoadAllSongs. rewrite Hsome. cbv beta iota. rewrite Hloop.
  unfold advance. reflexivity.
Qed.

(** The cycle when poll [k] is the first with a stable window. *)
Lemma run_export_stops_at (b : Button) (c : Container) (k : nat) :
  find_scrollContainer h = Some c ->
  k <= 100 ->
  stable_window (observed h) k ->
  (forall r, r < k -> ~ stable_window (observed h) r) ->
  run_export h b
  = (Normal tt,
     {| btn := ready; clock := k; trace := export_trace h (polls h c 0 k) k |}).
Proof.
  intros Hsome Hk Hwin Hfirst. apply run_export_found; [assumption|].
  pose proof (@scroll_loop_break h c 100 collecting k) as Hbreak.
  change (clock collecting) with 0 in Hbreak.
  change (seen (observed h) 0) with 0 in Hbreak.
  change (streak (observed h) 0) with 0 in Hbreak.
  rewrite Nat.sub_0_r in Hbreak. apply Hbreak.
  - destruct Hwin. lia.
  - assumption.
  - intros r Hr. apply streak_no_window, Hfirst. lia.
  - apply streak_window. assumption.
Qed.

(** The cycle when no poll up to the cap has a stable window. *)
Lemma run_export_exhausts (b : Button) (c : Container) :
  find_scrollContainer h = Some c ->
  (forall r, 1 <= r <= 100 -> streak (observed h) r <= 3) ->
  run_export h b
  = (Normal tt,
     {| btn := ready; clock := 100;
        trace := export_trace h (polls h c 0 100) 100 |}).
Proof.
  intros Hsome Hall. apply run_export_found; [assumption|].
  pose proof (@scroll_loop_exhaust h c 100 collecting) as Hex.
  change (clock collecting) with 0 in Hex.
  change (seen (observed h) 0) with 0 in Hex.
  change (streak (observed h) 0) with 0 in Hex.
  apply Hex. intros r Hr. apply Hall. lia.
Qed.

End ExportCycle.

(** ** The collector, end to end *)

Section CollectorClaims.

Variable h : Host.
Variable c : Container.
Variable b : Button.

Hypothesis container_found : find_scrollContainer h = Some c.

Let obs := observed h.

(** Among the polls up to a stable one there is a first stable one. *)
Lemma first_stable (k : nat) :
  stable_window obs k ->
  exists k0, k0 <= k /\ stable_window obs k0
             /\ forall r, r < k0 -> ~ stable_window obs r.
Proof.
  induction k as [k IH] using lt_wf_ind. intros Hk.
  destruct (forallb (fun r => streak obs r <=? 3) (seq 0 k)) eqn:E.
  - exists k. split; [lia|]. split; [assumption|].
    intros r Hr. apply streak_no_window.
    rewrite forallb_forall in E. apply Nat.leb_le, E, in_seq. lia.
  - assert (exists r, r < k /\ stable_window obs r) as (r & Hr & Hwin).
    { clear IH Hk. induction k as [|k IHk]; [discriminate|].
      rewrite seq_S, forallb_app in E. simpl in E.
      destruct (forallb (fun r => streak obs r <=? 3) (seq 0 k)).
      - exists k. split; [lia|]. apply streak_window.
        rewrite andb_true_r in E. apply Nat.leb_gt in E. exact E.
      - destruct (IHk eq_refl) as (r & Hr & Hwin). exists r. split; [lia|assumption]. }
    destruct (IH r Hr Hwin) as (k0 & Hk0 & Hwin0 & Hfirst).
    exists k0. split; [lia|]. split; assumption.
Qed.

Lemma stops_at_counts (k : nat) :
  run_export h b
  = (Normal tt, {| btn := ready; clock := k; trace := export_trace h (polls h c 0 k) k |}) ->
  scroll_triggers (run_export h b) = k
  /\ count is_extract (trace (snd (run_export h b))) = 1
  /\ In (EvExtractSongs (songs_at h k)) (trace (snd (run_export h b))).
Proof.
  intros ->. unfold scroll_triggers. simpl.
  destruct (count_export_trace h c k) as (-> & ->).
  repeat split. unfold export_trace. right. right. apply in_or_app. right. now left.
Qed.

(** C1. When poll k, within the cap of 100, is the first at which the
    last five observations agree (the streak then exceeds 3; the fifth
    observation of a window starting at poll 0 is the initial lastCount),
    the cycle performs exactly k scroll triggers and then extracts once.
    With equal counts at polls 5 to 9 the loop has stopped by poll 9, and
    it stops exactly at poll 9 when the count still changed at poll 5 and
    the first four polls were not all empty. *)
Theorem collector_stops_at_first_stable_poll :
  (forall k,
      k <= 100 ->
      stable_window obs k ->
      (forall r, r < k -> ~ stable_window obs r) ->
      3 < streak obs k
      /\ run_export h b
         = (Normal tt,
            {| btn := ready; clock := k; trace := export_trace h (polls h c 0 k) k |})
      /\ scroll_triggers (run_export h b) = k
      /\ count is_extract (trace (snd (run_export h b))) = 1)
  /\ ((forall r, 5 <= r < 9 -> obs r = obs (S r)) ->
      scroll_triggers (run_export h b) <= 9
      /\ count is_extract (trace (snd (run_export h b))) = 1
      /\ (obs 4 <> obs 5 ->
          (exists r, 1 <= r <= 4 /\ obs r <> 0) ->
          scroll_triggers (run_export h b) = 9
          /\ In (EvExtractSongs (songs_at h 9)) (trace (snd (run_export h b))))).
Proof.
  split.
  - intros k Hk Hwin Hfirst.
    split; [now apply streak_window|].
    pose proof (run_export_stops_at b container_found Hk Hwin Hfirst) as Hrun.
    split; [assumption|]. destruct (stops_at_counts Hrun) as (? & ? & _). now split.
  - intros Heq.
    assert (stable_window obs 9) as Hwin9.
    { split; [lia|]. intros j Hj.
      assert (j = 0 \/ j = 1 \/ j = 2 \/ j = 3) as [-> | [-> | [-> | ->]]] by lia;
        simpl; symmetry; apply Heq; lia. }
    destruct (first_stable Hwin9) as (k0 & Hk0 & Hwin0 & Hfirst0).
    assert (k0 <= 100) as Hcap by lia.
    pose proof (run_export_stops_at b container_found Hcap Hwin0 Hfirst0) as Hrun.
    destruct (stops_at_counts Hrun) as (Hs & He & _).
    split; [lia|]. split; [assumption|].
    intros Hchange (r0 & Hr0 & Hnz).
    assert (forall r, r < 9 -> ~ stable_window obs r) as Hfirst9.
    { intros r Hr [H4 Hall].
      assert (r = 4 \/ 5 <= r <= 8) as [->|Hr5] by lia.
      - pose proof (Hall 0 ltac:(lia)) as H0. pose proof (Hall 1 ltac:(lia)) as H1.
        pose proof (Hall 2 ltac:(lia)) as H2. pose proof (Hall 3 ltac:(lia)) as H3.
        simpl in H0, H1, H2, H3.
        assert (r0 = 1 \/ r0 = 2 \/ r0 = 3 \/ r0 = 4) as [-> | [-> | [-> | ->]]] by lia;
          congruence.
      - specialize (Hall (r - 5) ltac:(lia)).
        replace (r - (r - 5)) with 5 in Hall by lia.
        replace (5 - 1) with 4 in Hall by lia.
        simpl in Hall. congruence. }
    assert (9 <= 100) as Hcap9 by lia.
    pose proof (run_export_stops_at b container_found Hcap9 Hwin9 Hfirst9) as Hrun9.
    destruct (stops_at_counts Hrun9) as (? & _ & ?). now split.
Qed.

End CollectorClaims.

Lemma collector_stops_at_first_stable_poll_witness :
  scroll_triggers (run_export loading_page ready) = 9
  /\ count is_extract (trace (snd (run_export loading_page ready))) = 1
  /\ In (EvExtractSongs (songs_at loading_page 9))
        (trace (snd (run_export loading_page ready)))
  /\ length (songs_at loading_page 9) = 37.
Proof.
  destruct (@collector_stops_at_first_stable_poll loading_page 7 ready eq_refl)
    as [Hgeneral Hscenario].
  assert (forall r, 5 <= r < 9 -> observed loading_page r = observed loading_page (S r))
    as Hequal.
  { intros r Hr.
    assert (r = 5 \/ r = 6 \/ r = 7 \/ r = 8) as [-> | [-> | [-> | ->]]] by lia;
      reflexivity. }
  destruct (Hscenario Hequal) as (_ & Hextract & Hexact).
  assert (observed loading_page 4 <> observed loading_page 5) as Hchange
      by (vm_compute; lia).
  assert (exists r, 1 <= r <= 4 /\ observed loading_page r <> 0) as Hrows
      by (exists 1; vm_compute; lia).
  destruct (Hexact Hchange Hrows) as (Hnine & Hin).
  assert (stable_window (observed loading_page) 9) as Hwin.
  { split; [lia|]. intros j Hj.
    assert (j = 0 \/ j = 1 \/ j = 2 \/ j = 3) as [-> | [-> | [-> | ->]]] by lia;
      reflexivity. }
  assert (forall r, r < 9 -> ~ stable_window (observed loading_page) r) as Hfirst.
  { intros r Hr. apply streak_no_window.
    do 9 (destruct r as [|r]; [vm_compute; lia|]). lia. }
  destruct (Hgeneral 9 ltac:(lia) Hwin Hfirst) as (_ & _ & Hnine' & _).
  split; [exact Hnine'|]. split; [exact Hextract|]. split; [exact Hin|].
  vm_compute. reflexivity.
Defined.

(** C1, as stated, fails: equal counts at polls 5 to 9 do not make the
    loop stop after round 9.  On a page that shows 37 rows from the start
    the counts at polls 5 to 9 are equal and the loop stops after round 5. *)
Lemma equal_counts_may_stop_earlier :
  find_scrollContainer (constant_page 37) = Some 7
  /\ (forall r, 5 <= r < 9 ->
                observed (constant_page 37) r = observed (constant_page 37) (S r))
  /\ scroll_triggers (run_export (constant_page 37) ready) = 5
  /\ ~ stops_after_round_nine.
Proof.
  assert (forall r, 5 <= r < 9 ->
                    observed (constant_page 37) r = observed (constant_page 37) (S r))
    as Hequal by (intros r _; reflexivity).
  assert (scroll_triggers (run_export (constant_page 37) ready) = 5) as Hfive
      by (vm_compute; reflexivity).
  split; [reflexivity|]. split; [exact Hequal|]. split; [exact Hfive|].
  intros Hclaim.
  pose proof (Hclaim (constant_page 37) 7 ready eq_refl Hequal) as Hnine.
  rewrite Hfive in Hnine. discriminate Hnine.
Qed.

Lemma streak_bounded_spec (obs : nat -> nat) (n : nat) :
  streak_bounded obs n = true -> forall r, 1 <= r <= n -> streak obs r <= 3.
Proof.
  unfold streak_bounded. rewrite forallb_forall. intros Hall r Hr.
  apply Nat.leb_le, Hall, in_seq. lia.
Qed.

(** C4. When the streak never exceeds 3 on the 100 polls, the cycle
    performs exactly 100 rounds, completes normally, and extracts once, on
    the rows shown after the last poll. *)
Theorem collector_stops_at_cap (h : Host) (c : Container) (b : Button) :
  find_scrollContainer h = Some c ->
  (forall r, 1 <= r <= 100 -> streak (observed h) r <= 3) ->
  run_export h b
  = (Normal tt,
     {| btn := ready; clock := 100; trace := export_trace h (polls h c 0 100) 100 |})
  /\ scroll_triggers (run_export h b) = 100
  /\ count is_extract (trace (snd (run_export h b))) = 1
  /\ In (EvExtractSongs (songs_at h 100)) (trace (snd (run_export h b))).
Proof.
  intros Hsome Hall.
  pose proof (@run_export_exhausts h b c Hsome Hall) as Hrun.
  split; [assumption|]. exact (@stops_at_counts h c b 100 Hrun).
Qed.

Lemma collector_stops_at_cap_witness :
  scroll_triggers (run_export growing_page ready) = 100
  /\ In (EvExtractSongs (songs_at growing_page 100))
        (trace (snd (run_export growing_page ready)))
  /\ length (songs_at growing_page 100) = 100.
Proof.
  assert (streak_bounded (observed growing_page) 100 = true) as Hbounded
      by (vm_compute; reflexivity).
  destruct (@collector_stops_at_cap growing_page 7 ready eq_refl
              (@streak_bounded_spec _ 100 Hbounded)) as (_ & Hrounds & _ & Hin).
  split; [exact Hrounds|]. split; [exact Hin|]. vm_compute. reflexivity.
Defined.

(** C10. The initial lastCount is 0, so an empty first poll already
    extends the streak: on a page that never shows a row the loop stops
    after 4 rounds, on a page that always shows the same nonzero number of
    rows it stops after 5. *)
Theorem zero_count_stops_one_round_early
        (h0 h1 : Host) (c0 c1 : Container) (b : Button) (n : nat) :
  find_scrollContainer h0 = Some c0 ->
  find_scrollContainer h1 = Some c1 ->
  (forall r, 1 <= r -> observed h0 r = 0) ->
  n <> 0 ->
  (forall r, 1 <= r -> observed h1 r = n) ->
  streak (observed h0) 1 = 1
  /\ streak (observed h1) 1 = 0
  /\ scroll_triggers (run_export h0 b) = 4
  /\ scroll_triggers (run_export h1 b) = 5
  /\ scroll_triggers (run_export h0 b) + 1 = scroll_triggers (run_export h1 b).
Proof.
  intros Hc0 Hc1 Hzero Hn Hconst.
  assert (streak (observed h0) 1 = 1) as Hs0.
  { simpl. rewrite (Hzero 1) by lia. reflexivity. }
  assert (streak (observed h1) 1 = 0) as Hs1.
  { simpl. rewrite (Hconst 1) by lia. destruct n; [contradiction|reflexivity]. }
  assert (scroll_triggers (run_export h0 b) = 4) as H4.
  { assert (4 <= 100) as Hcap by lia.
    refine (proj1 (@stops_at_counts h0 c0 b 4 (@run_export_stops_at h0 b c0 4 Hc0 Hcap _ _))).
    - split; [lia|]. intros j Hj.
      assert (j = 0 \/ j = 1 \/ j = 2 \/ j = 3) as [-> | [-> | [-> | ->]]] by lia;
        simpl; rewrite ?Hzero by lia; reflexivity.
    - intros r Hr [Hr4 _]. lia. }
  assert (scroll_triggers (run_export h1 b) = 5) as H5.
  { assert (5 <= 100) as Hcap by lia.
    refine (proj1 (@stops_at_counts h1 c1 b 5 (@run_export_stops_at h1 b c1 5 Hc1 Hcap _ _))).
    - split; [lia|]. intros j Hj.
      assert (j = 0 \/ j = 1 \/ j = 2 \/ j = 3) as [-> | [-> | [-> | ->]]] by lia;
        simpl; rewrite !Hconst by lia; reflexivity.
    - intros r Hr [Hr4 Hall].
      assert (r = 4) as -> by lia.
      specialize (Hall 3 ltac:(lia)). simpl in Hall.
      rewrite Hconst in Hall by lia. contradiction. }
  split; [exact Hs0|]. split; [exact Hs1|]. split; [exact H4|]. split; [exact H5|].
  rewrite H4, H5. reflexivity.
Qed.

Lemma zero_count_stops_one_round_early_witness :
  scroll_triggers (run_export (constant_page 0) ready) = 4
  /\ scroll_triggers (run_export (constant_page 37) ready) = 5.
Proof.
  destruct (@zero_count_stops_one_round_early
              (constant_page 0) (constant_page 37) 7 7 ready 37
              eq_refl eq_refl
              (fun r _ => eq_refl)
              (fun E : 37 = 0 => eq_ind 37 (fun x => match x with 0 => False | S _ => True end) I 0 E)
              (fun r _ => repeat_length sample_row 37))
    as (_ & _ & H4 & H5 & _).
  split; [exact H4|exact H5].
Defined.

(** ** Outcomes of a cycle *)

Section Outcomes.

Variable h : Host.
Variable b : Button.

Lemma finish_events_split (songs : list jsstring) :
  finish_events h songs = outcome_events h songs ++ restore_events.
Proof.
  unfold finish_events, outcome_events. destruct (length songs =? 0); reflexivity.
Qed.

(** Every cycle completes normally, in one of two shapes. *)
Lemma run_export_shape :
  exists collected t,
    run_export h b
    = (Normal tt, {| btn := ready; clock := t; trace := export_trace h collected t |})
    /\ ((find_scrollContainer h = None
         /\ collected = [EvAlert containerNotFoundMessage] /\ t = 0)
        \/ (exists c, find_scrollContainer h = Some c
                      /\ collected = polls h c 0 t /\ t <= 100)).
Proof.
  destruct (find_scrollContainer h) as [c|] eqn:Hfind.
  - destruct (scroll_loop_total h c 100 collecting 0 0) as (n & Hn & Hloop).
    exists (polls h c 0 n), n. split.
    + apply run_export_found; assumption.
    + right. exists c. auto.
  - exists [EvAlert containerNotFoundMessage], 0. split.
    + apply run_export_not_found. assumption.
    + left. auto.
Qed.

Lemma in_polls (c : Container) (t n : nat) (e : Event) :
  In e (polls h c t n) ->
  is_alert e = false /\ is_button_write e = false /\ is_extract e = false.
Proof.
  unfold polls. rewrite in_flat_map. intros (r & _ & Hin).
  destruct Hin as [<- | [<- | [<- | []]]]; repeat split.
Qed.

Lemma messages_differ (n : nat) :
  exportedMessage n <> noSongsMessage
  /\ exportedMessage n <> containerNotFoundMessage
  /\ containerNotFoundMessage <> noSongsMessage.
Proof.
  repeat split; intros E; apply (f_equal (hd 0%N)) in E; vm_compute in E;
    discriminate E.
Qed.

Lemma count_export_trace_parts (p : Event -> bool) (collected : list Event) (t : nat) :
  count p (export_trace h collected t)
  = count p [EvSetTextContent (lit "Exporting..."); EvSetDisabled true]
    + count p collected
    + count p [EvExtractSongs (songs_at h t)]
    + count p (outcome_events h (songs_at h t))
    + count p restore_events.
Proof.
  unfold export_trace.
  change (EvExtractSongs (songs_at h t) :: finish_events h (songs_at h t))
    with ([EvExtractSongs (songs_at h t)] ++ finish_events h (songs_at h t)).
  rewrite finish_events_split, !count_app. lia.
Qed.

Lemma count_collected (collected : list Event) (t : nat) :
  (find_scrollContainer h = None
   /\ collected = [EvAlert containerNotFoundMessage] /\ t = 0)
  \/ (exists c, find_scrollContainer h = Some c
                /\ collected = polls h c 0 t /\ t <= 100) ->
  count is_extract collected = 0
  /\ count is_clipboard collected = 0
  /\ count is_download collected = 0
  /\ count is_button_write collected = 0
  /\ forall msg, In (EvAlert msg) collected -> msg = containerNotFoundMessage.
Proof.
  intros [(_ & -> & _) | (c & _ & -> & _)].
  - repeat split. intros msg [E | []]. congruence.
  - destruct (count_polls h c 0 t) as (_ & -> & -> & -> & _ & ->).
    repeat split. intros msg Hin. apply in_polls in Hin. destruct Hin as (Ha & _).
    discriminate Ha.
Qed.

Lemma outcome_empty (songs : list jsstring) :
  songs = [] -> outcome_events h songs = [EvAlert noSongsMessage].
Proof. intros ->. reflexivity. Qed.

Lemma outcome_nonempty (songs : list jsstring) :
  songs <> [] ->
  outcome_events h songs
  = [ (if GM_setClipboard_defined h
       then EvGMSetClipboard (join LF songs)
       else EvNavigatorClipboard (join LF songs));
      EvDownload (lit "spotify_songs.txt") (lit "text/plain") (join LF songs);
      EvAlert (exportedMessage (length songs)) ].
Proof.
  intros Hne. unfold outcome_events.
  destruct songs as [|song songs]; [contradiction|reflexivity].
Qed.

Lemma in_export_trace (collected : list Event) (t : nat) (e : Event) :
  In e (export_trace h collected t)
  <-> e = EvSetTextContent (lit "Exporting...") \/ e = EvSetDisabled true
      \/ In e collected \/ e = EvExtractSongs (songs_at h t)
      \/ In e (outcome_events h (songs_at h t)) \/ In e restore_events.
Proof.
  unfold export_trace. rewrite finish_events_split.
  change (?x :: ?l ++ ?r) with ([x] ++ l ++ r).
  rewrite !in_app_iff. simpl. intuition (subst; auto).
Qed.

End Outcomes.

(** What a cycle does with the records it holds, by the names of the
    notices. *)
Lemma cycle_outcome (h : Host) (b : Button) :
  let r := run_export h b in
  let tr := trace (snd r) in
  let songs := songs_at h (clock (snd r)) in
  fst r = Normal tt
  /\ extractSongs (rows_at h (clock (snd r))) = Normal songs
  /\ In (EvExtractSongs songs) tr
  /\ count is_extract tr = 1
  /\ (songs = [] ->
      In (EvAlert noSongsMessage) tr
      /\ count is_clipboard tr = 0
      /\ count is_download tr = 0
      /\ forall n, ~ In (EvAlert (exportedMessage n)) tr)
  /\ (songs <> [] ->
      In (EvAlert (exportedMessage (length songs))) tr
      /\ ~ In (EvAlert noSongsMessage) tr
      /\ count is_clipboard tr = 1
      /\ count is_download tr = 1).
Proof.
  destruct (run_export_shape h b) as (collected & t & Hrun & Hshape).
  cbv zeta. rewrite Hrun. cbn [fst snd trace clock].
  destruct (@count_collected h collected t Hshape) as (He & Hc & Hd & _ & Halert).
  split; [reflexivity|].
  split; [apply extractSongs_pushed|].
  split; [apply in_export_trace; auto|].
  split; [rewrite count_export_trace_parts, He; unfold outcome_events;
          destruct (length (songs_at h t) =? 0), (GM_setClipboard_defined h);
          reflexivity|].
  split.
  - intros Hempty. pose proof (outcome_empty h Hempty) as Hout.
    split; [apply in_export_trace; rewrite Hout; simpl; auto 10|].
    split; [rewrite count_export_trace_parts, Hc, Hout; reflexivity|].
    split; [rewrite count_export_trace_parts, Hd, Hout; reflexivity|].
    intros n Hin. apply in_export_trace in Hin. rewrite Hout in Hin.
    destruct (messages_differ n) as (Hno & Hnf & _).
    destruct Hin as [E | [E | [Hin | [E | [Hin | Hin]]]]];
      try discriminate E.
    + apply Halert in Hin. contradiction.
    + destruct Hin as [E | []]. congruence.
    + destruct Hin as [E | [E | []]]; discriminate E.
  - intros Hne. pose proof (outcome_nonempty h Hne) as Hout.
    split; [apply in_export_trace; rewrite Hout; simpl; auto 10|].
    split.
    + intros Hin. apply in_export_trace in Hin. rewrite Hout in Hin.
      destruct (messages_differ (length (songs_at h t))) as (Hno & _ & Hcn).
      destruct Hin as [E | [E | [Hin | [E | [Hin | Hin]]]]];
        try discriminate E.
      * apply Halert in Hin. congruence.
      * destruct Hin as [E | [E | [E | []]]];
          first [ discriminate E
                | congruence
                | destruct (GM_setClipboard_defined h); discriminate E ].
      * destruct Hin as [E | [E | []]]; discriminate E.
    + split; rewrite count_export_trace_parts, ?Hc, ?Hd, Hout;
        destruct (GM_setClipboard_defined h); reflexivity.
Qed.

Lemma lit_app (s t : string) : lit (s ++ t)%string = lit s ++ lit t.
Proof.
  unfold lit. induction s as [|ch s IH]; [reflexivity|].
  simpl. f_equal. exact IH.
Qed.

(** The notices, letter by letter. *)
Lemma exportedMessage_text (n : nat) :
  exportedMessage n
  = code_units ("Exported " ++ NilZero.string_of_uint (Nat.to_uint n) ++ " songs!"
                ++ String "010"
                     "Copied to clipboard and downloaded as spotify_songs.txt")%string.
Proof.
  unfold exportedMessage, of_length.
  change (map N_of_ascii (list_ascii_of_string ?x)) with (lit x).
  rewrite !lit_app. reflexivity.
Qed.

Lemma decimal_of_length (n : nat) :
  option_map Nat.of_uint (NilZero.uint_of_string (NilZero.string_of_uint (Nat.to_uint n)))
  = Some n.
Proof.
  destruct (NilZero.usu_gen (Nat.to_uint n)) as [-> | Hzero].
  - simpl. now rewrite DecimalNat.Unsigned.of_to.
  - pose proof (DecimalNat.Unsigned.of_to n) as Hn.
    destruct (Nat.to_uint n) eqn:E; try (rewrite NilZero.usu; [simpl; now rewrite Hn|discriminate]).
    rewrite Hzero. simpl in *. now rewrite <- Hn.
Qed.

(** C7. A cycle whose extraction yields no record ends with the notice
    No songs found!, and every notice it shows is that one or the one about
    the missing container: it writes neither clipboard nor file and shows no
    success notice.  A cycle whose extraction yields records shows the
    notice Exported N songs!, where N is the number of records written in
    decimal. *)
Theorem empty_result_is_not_success (h : Host) (b : Button) :
  let r := run_export h b in
  let tr := trace (snd r) in
  let songs := songs_at h (clock (snd r)) in
  fst r = Normal tt
  /\ extractSongs (rows_at h (clock (snd r))) = Normal songs
  /\ In (EvExtractSongs songs) tr
  /\ count is_extract tr = 1
  /\ (songs = [] ->
      In (EvAlert noSongsMessage) tr
      /\ In (EvAlert
               (code_units
                  "No songs found! Make sure you are on a playlist or liked songs page."))
            tr
      /\ (forall msg,
             In (EvAlert msg) tr ->
             msg = code_units
                     "No songs found! Make sure you are on a playlist or liked songs page."
             \/ msg = code_units
                        "Could not find the scrollable container. Please make sure you're on a playlist or liked songs page.")
      /\ count is_clipboard tr = 0
      /\ count is_download tr = 0
      /\ forall n, ~ In (EvAlert (exportedMessage n)) tr)
  /\ (songs <> [] ->
      In (EvAlert (exportedMessage (length songs))) tr
      /\ In (EvAlert
               (code_units
                  ("Exported " ++ NilZero.string_of_uint (Nat.to_uint (length songs))
                   ++ " songs!"
                   ++ String "010"
                        "Copied to clipboard and downloaded as spotify_songs.txt")%string))
            tr
      /\ option_map Nat.of_uint
           (NilZero.uint_of_string (NilZero.string_of_uint (Nat.to_uint (length songs))))
         = Some (length songs)
      /\ ~ In (EvAlert noSongsMessage) tr
      /\ count is_clipboard tr = 1
      /\ count is_download tr = 1).
Proof.
  destruct (cycle_outcome h b) as (Hfst & Hsongs & Hin & Hone & Hempty & Hfull).
  cbv zeta in *.
  split; [exact Hfst|]. split; [exact Hsongs|]. split; [exact Hin|].
  split; [exact Hone|]. split.
  - intros Hnone. destruct (Hempty Hnone) as (Hnotice & Hclip & Hfile & Hnever).
    split; [exact Hnotice|]. split; [exact Hnotice|].
    split; [|split; [exact Hclip|split; [exact Hfile|exact Hnever]]].
    intros msg Hmsg.
    destruct (run_export_shape h b) as (collected & t & Hrun & Hshape).
    rewrite Hrun in Hmsg, Hnone. cbn [snd trace clock] in Hmsg, Hnone.
    destruct (@count_collected h collected t Hshape) as (_ & _ & _ & _ & Halert).
    apply in_export_trace in Hmsg. rewrite (outcome_empty h Hnone) in Hmsg.
    destruct Hmsg as [E | [E | [Hc | [E | [Ho | Hr]]]]]; try discriminate E.
    + right. exact (Halert msg Hc).
    + left. destruct Ho as [E | []]. injection E as <-. reflexivity.
    + destruct Hr as [E | [E | []]]; discriminate E.
  - intros Hsome. destruct (Hfull Hsome) as (Hnotice & Hnot & Hclip & Hfile).
    split; [exact Hnotice|].
    split; [rewrite <- exportedMessage_text; exact Hnotice|].
    split; [apply decimal_of_length|].
    split; [exact Hnot|]. split; [exact Hclip|exact Hfile].
Qed.

Lemma empty_result_is_not_success_witness :
  In (EvAlert
        (code_units "No songs found! Make sure you are on a playlist or liked songs page."))
     (trace (snd (run_export blank_page ready)))
  /\ count is_clipboard (trace (snd (run_export blank_page ready))) = 0
  /\ count is_download (trace (snd (run_export blank_page ready))) = 0
  /\ In (EvAlert
           (code_units
              ("Exported 37 songs!"
               ++ String "010"
                    "Copied to clipboard and downloaded as spotify_songs.txt")%string))
        (trace (snd (run_export loading_page ready))).
Proof.
  destruct (empty_result_is_not_success blank_page ready)
    as (_ & _ & _ & _ & Hempty & _).
  destruct (empty_result_is_not_success loading_page ready)
    as (_ & _ & _ & _ & _ & Hfull).
  assert (songs_at blank_page (clock (snd (run_export blank_page ready))) = [])
    as Hnone by (vm_compute; reflexivity).
  assert (songs_at loading_page (clock (snd (run_export loading_page ready))) <> [])
    as Hsome by (vm_compute; discriminate).
  assert (length (songs_at loading_page (clock (snd (run_export loading_page ready))))
          = 37) as Hcount by (vm_compute; reflexivity).
  destruct (Hempty Hnone) as (_ & Hnotice & _ & Hclip & Hfile & _).
  destruct (Hfull Hsome) as (_ & Hsuccess & _).
  rewrite Hcount in Hsuccess.
  split; [exact Hnotice|]. split; [exact Hclip|]. split; [exact Hfile|exact Hsuccess].
Defined.

Lemma count_sinks_not_found (h : Host) :
  let tr := export_trace h [EvAlert containerNotFoundMessage] 0 in
  count is_scroll tr = 0
  /\ count is_extract tr = 1
  /\ count is_clipboard tr = (if length (songs_at h 0) =? 0 then 0 else 1)
  /\ count is_download tr = (if length (songs_at h 0) =? 0 then 0 else 1).
Proof.
  cbv zeta. rewrite !count_export_trace_parts. unfold outcome_events.
  destruct (length (songs_at h 0) =? 0), (GM_setClipboard_defined h);
    repeat split; reflexivity.
Qed.

(** C2, as the script has it.  When no scroll container is found,
    [scrollToLoadAllSongs] alerts, performs no scroll round and returns
    normally; the cycle then goes on as after any scroll phase: it extracts
    once, from the rows the page shows at that moment, and it writes the
    clipboard and the file exactly when that extraction yields a record. *)
Theorem container_not_found_alerts_then_extracts (h : Host) (b : Button) :
  find_scrollContainer h = None ->
  let tr := trace (snd (run_export h b)) in
  scrollToLoadAllSongs h collecting
  = (Normal tt,
     {| btn := busy; clock := 0;
        trace := trace collecting ++ [EvAlert containerNotFoundMessage] |})
  /\ fst (run_export h b) = Normal tt
  /\ tr = export_trace h [EvAlert containerNotFoundMessage] 0
  /\ In (EvAlert containerNotFoundMessage) tr
  /\ count is_scroll tr = 0
  /\ count is_extract tr = 1
  /\ In (EvExtractSongs (songs_at h 0)) tr
  /\ (songs_at h 0 = [] -> count is_clipboard tr = 0 /\ count is_download tr = 0)
  /\ (songs_at h 0 <> [] -> count is_clipboard tr = 1 /\ count is_download tr = 1).
Proof.
  intros Hnone. cbv zeta. rewrite (run_export_not_found h b Hnone).
  cbn [fst snd trace].
  destruct (count_sinks_not_found h) as (Hs & He & Hc & Hd).
  split; [unfold scrollToLoadAllSongs; rewrite Hnone; reflexivity|].
  split; [reflexivity|]. split; [reflexivity|].
  split; [apply in_export_trace; simpl; auto|].
  split; [assumption|]. split; [assumption|].
  split; [apply in_export_trace; auto|].
  rewrite Hc, Hd. split.
  - intros ->. split; reflexivity.
  - intros Hne. destruct (songs_at h 0); [contradiction|split; reflexivity].
Qed.

Lemma container_not_found_alerts_then_extracts_witness :
  count is_scroll (trace (snd (run_export stray_page ready))) = 0
  /\ count is_extract (trace (snd (run_export stray_page ready))) = 1
  /\ count is_clipboard (trace (snd (run_export stray_page ready))) = 1
  /\ count is_extract (trace (snd (run_export blank_page ready))) = 1
  /\ count is_clipboard (trace (snd (run_export blank_page ready))) = 0.
Proof.
  destruct (@container_not_found_alerts_then_extracts stray_page ready eq_refl)
    as (_ & _ & _ & _ & Hs & He & _ & _ & Hsome).
  destruct (@container_not_found_alerts_then_extracts blank_page ready eq_refl)
    as (_ & _ & _ & _ & _ & He0 & _ & Hnone & _).
  assert (songs_at stray_page 0 <> []) as Hne by (vm_compute; discriminate).
  split; [exact Hs|]. split; [exact He|]. split; [exact (proj1 (Hsome Hne))|].
  split; [exact He0|]. exact (proj1 (Hnone eq_refl)).
Defined.

(** C2, as stated, fails: on a page with rows but without a recognised
    scroll container the cycle alerts and then exports all the same. *)
Lemma container_not_found_still_exports :
  find_scrollContainer stray_page = None
  /\ trace (snd (run_export stray_page ready))
     = [ EvSetTextContent (lit "Exporting..."); EvSetDisabled true;
         EvAlert containerNotFoundMessage;
         EvExtractSongs [lit "Wake Me Up - Avicii"; lit "Wake Me Up - Avicii"];
         EvGMSetClipboard (lit "Wake Me Up - Avicii" ++ LF ++ lit "Wake Me Up - Avicii");
         EvDownload (lit "spotify_songs.txt") (lit "text/plain")
                    (lit "Wake Me Up - Avicii" ++ LF ++ lit "Wake Me Up - Avicii");
         EvAlert (exportedMessage 2);
         EvSetTextContent (lit "Export Songs"); EvSetDisabled false ]
  /\ ~ aborts_without_container.
Proof.
  split; [reflexivity|]. split; [vm_compute; reflexivity|].
  intros Habort.
  destruct (Habort stray_page ready eq_refl) as (_ & _ & He & _).
  vm_compute in He. discriminate He.
Qed.

(** ** The trigger control during a cycle *)

Section Control.

Variable h : Host.

Lemma button_after_app (l1 l2 : list Event) (b : Button) :
  button_after (l1 ++ l2) b = button_after l2 (button_after l1 b).
Proof. apply fold_left_app. Qed.

Lemma button_after_no_write (l : list Event) (b : Button) :
  Forall (fun e => is_button_write e = false) l -> button_after l b = b.
Proof.
  intros Hall. revert b. induction Hall as [|e l He _ IH]; intros b; [reflexivity|].
  simpl. destruct e; try discriminate He; apply IH.
Qed.

Lemma button_after_prefix (mid rest : list Event) (j : nat) (b : Button) :
  Forall (fun e => is_button_write e = false) mid ->
  button_after (firstn j (mid ++ rest)) b
  = button_after (firstn (j - length mid) rest) b.
Proof.
  intros Hall. rewrite firstn_app, button_after_app.
  rewrite (@button_after_no_write (firstn j mid)); [reflexivity|].
  clear b rest. revert j.
  induction Hall as [|e l He _ IH]; intros [|j]; simpl; constructor; auto.
Qed.

Lemma polls_no_write (c : Container) (t n : nat) :
  Forall (fun e => is_button_write e = false) (polls h c t n).
Proof. apply Forall_forall. intros e Hin. now apply in_polls in Hin. Qed.

Lemma outcome_no_write (songs : list jsstring) :
  Forall (fun e => is_button_write e = false) (outcome_events h songs).
Proof.
  unfold outcome_events.
  destruct (length songs =? 0), (GM_setClipboard_defined h);
    repeat constructor.
Qed.

(** The trace of any cycle: the two writes that make the control busy, a
    middle part that leaves it alone, the two writes that restore it. *)
Lemma export_trace_writes (b : Button) :
  exists mid,
    trace (snd (run_export h b))
    = EvSetTextContent (lit "Exporting...") :: EvSetDisabled true
      :: mid ++ restore_events
    /\ Forall (fun e => is_button_write e = false) mid
    /\ btn (snd (run_export h b)) = ready.
Proof.
  destruct (run_export_shape h b) as (collected & t & -> & Hshape).
  exists (collected ++ EvExtractSongs (songs_at h t) :: outcome_events h (songs_at h t)).
  cbn [snd trace btn]. split; [|split; [|reflexivity]].
  - unfold export_trace. rewrite finish_events_split.
    cbn [app]. rewrite <- app_assoc. reflexivity.
  - apply Forall_app. split.
    + destruct Hshape as [(_ & -> & _) | (c & _ & -> & _)].
      * repeat constructor.
      * apply polls_no_write.
    + constructor; [reflexivity|apply outcome_no_write].
Qed.

End Control.

(** C8. From the second event of a cycle to its last one the control is
    disabled, so a click on it starts nothing; up to the restoring writes,
    and in particular at every suspension of the loop, it carries the busy
    label; when the cycle ends, on whichever outcome, it is enabled again
    with the label that [addExportButton] gave it. *)
Theorem control_is_busy_during_cycle (h : Host) (b : Button) :
  let tr := trace (snd (run_export h b)) in
  (forall k, 2 <= k < length tr ->
      btn_disabled (button_after (firstn k tr) b) = true
      /\ click h (button_after (firstn k tr) b) = None)
  /\ (forall k, 2 <= k <= length tr - 2 -> button_after (firstn k tr) b = busy)
  /\ (forall k ms, nth_error tr k = Some (EvSleep ms) ->
        button_after (firstn k tr) b = busy)
  /\ button_after tr b = ready
  /\ btn (snd (run_export h b)) = ready
  /\ Dom.to_button Dom.new_button = ready
  /\ click h ready = Some (run_export h ready).
Proof.
  destruct (export_trace_writes h b) as (mid & Htr & Hmid & Hbtn).
  cbv zeta. rewrite Htr.
  assert (forall j, button_after
                      (firstn (S (S j))
                              (EvSetTextContent (lit "Exporting...") :: EvSetDisabled true
                               :: mid ++ restore_events)) b
                    = button_after (firstn (j - length mid) restore_events) busy)
    as Hprefix.
  { intros j. cbn [firstn]. unfold button_after at 1. cbn [fold_left apply_event].
    fold (button_after (firstn j (mid ++ restore_events)) busy).
    now apply button_after_prefix. }
  assert (length (EvSetTextContent (lit "Exporting...") :: EvSetDisabled true
                  :: mid ++ restore_events) = length mid + 4) as Hlen.
  { cbn [length]. rewrite length_app. unfold restore_events. simpl. lia. }
  rewrite Hlen.
  assert (forall k, 2 <= k <= length mid + 2 ->
            button_after
              (firstn k (EvSetTextContent (lit "Exporting...") :: EvSetDisabled true
                         :: mid ++ restore_events)) b = busy) as Hbusy.
  { intros k Hk. destruct k as [|[|j]]; try lia.
    rewrite Hprefix. replace (j - length mid) with 0 by lia. reflexivity. }
  split; [|split; [|split; [|split; [|split; [|split]]]]].
  - intros k Hk. destruct k as [|[|j]]; try lia.
    rewrite Hprefix.
    assert (j - length mid = 0 \/ j - length mid = 1) as [-> | ->] by lia;
      split; reflexivity.
  - intros k Hk. apply Hbusy. lia.
  - intros k ms Hnth. apply Hbusy.
    destruct k as [|[|j]]; try discriminate Hnth.
    cbn [nth_error] in Hnth.
    destruct (Nat.lt_ge_cases j (length mid)) as [Hlt | Hge]; [lia|].
    rewrite nth_error_app2 in Hnth by assumption.
    destruct (j - length mid) as [|[|i]]; try discriminate Hnth.
    destruct i; discriminate Hnth.
  - change (button_after
              ([EvSetTextContent (lit "Exporting..."); EvSetDisabled true]
               ++ mid ++ restore_events) b = ready).
    rewrite !button_after_app, (button_after_no_write _ Hmid). reflexivity.
  - assumption.
  - reflexivity.
  - reflexivity.
Qed.

(** ** Injection of the trigger control *)

Section Injection.

Import Dom.

Lemma Node_forall_ind (P : Node -> Prop) :
  (forall s, P (Text s)) ->
  (forall d kids, Forall P kids -> P (Elem d kids)) ->
  forall n, P n.
Proof.
  intros HText HElem.
  fix IH 1. intros [s | d kids]; [apply HText|].
  apply HElem. induction kids as [|k kids IHkids]; constructor; [apply IH|assumption].
Qed.

Variable p : ElemData -> bool.

Lemma scan_children_none (f : Node -> option Path) (ks : list Node) :
  forall i, scan_children f i ks = None <-> Forall (fun k => f k = None) ks.
Proof.
  induction ks as [|k ks IH]; intros i; simpl.
  - split; [constructor|reflexivity].
  - destruct (f k) as [q|] eqn:E.
    + split; [discriminate|]. intros Hall. inversion Hall; congruence.
    + rewrite IH. split; [now constructor|]. intros Hall. now inversion Hall.
Qed.

Lemma scan_children_some (f : Node -> option Path) (ks : list Node) :
  forall i path,
    scan_children f i ks = Some path ->
    exists j k q, nth_error ks j = Some k /\ f k = Some q /\ path = (i + j) :: q.
Proof.
  induction ks as [|k ks IH]; intros i path; simpl; [discriminate|].
  destruct (f k) as [q|] eqn:E.
  - intros [= <-]. exists 0, k, q. rewrite Nat.add_0_r. auto.
  - intros Hscan. destruct (IH _ _ Hscan) as (j & k' & q & Hnth & Hf & ->).
    exists (S j), k', q. repeat split; auto. f_equal. lia.
Qed.

Lemma list_sum_zero (l : list nat) : list_sum l = 0 <-> Forall (fun x => x = 0) l.
Proof.
  induction l as [|x l IH]; simpl.
  - split; [constructor|reflexivity].
  - split.
    + intros Hsum. constructor; [lia|]. apply IH. lia.
    + intros Hall. inversion Hall; subst. apply IH in H2. lia.
Qed.

Lemma find_first_none (n : Node) :
  find_first p n = None <-> count_elems p n = 0.
Proof.
  induction n as [s | d kids IH] using Node_forall_ind; simpl; [tauto|].
  destruct (p d).
  - split; [discriminate|lia].
  - rewrite scan_children_none. simpl. rewrite list_sum_zero, Forall_map.
    rewrite !Forall_forall in *. split; intros Hall k Hin; apply IH; auto.
Qed.

Lemma find_first_some (n : Node) :
  forall path,
    find_first p n = Some path ->
    exists d kids, node_at path n = Some (Elem d kids) /\ p d = true.
Proof.
  induction n as [s | d kids IH] using Node_forall_ind; intros path; simpl;
    [discriminate|].
  destruct (p d) eqn:Hp.
  - intros [= <-]. exists d, kids. auto.
  - intros Hscan.
    destruct (scan_children_some _ _ _ Hscan) as (j & k & q & Hnth & Hf & ->).
    simpl. rewrite Hnth. rewrite Forall_forall in IH.
    apply (IH k); [eapply nth_error_In; eassumption|assumption].
Qed.

Lemma count_update_nth (f : Node -> Node) (extra : nat) (kids : list Node) :
  forall i k,
    nth_error kids i = Some k ->
    count_elems p (f k) = count_elems p k + extra ->
    list_sum (map (count_elems p) (update_nth i f kids))
    = list_sum (map (count_elems p) kids) + extra.
Proof.
  induction kids as [|x kids IH]; intros [|i] k Hnth Hf; simpl in *;
    try discriminate.
  - injection Hnth as ->. lia.
  - rewrite (IH _ _ Hnth Hf). lia.
Qed.

Lemma count_appendChild (child : Node) (path : Path) :
  forall n d kids,
    node_at path n = Some (Elem d kids) ->
    count_elems p (appendChild path child n)
    = count_elems p n + count_elems p child.
Proof.
  induction path as [|i rest IH]; intros n d kids Hat.
  - simpl in Hat. injection Hat as ->. simpl.
    rewrite map_app, list_sum_app. simpl. lia.
  - destruct n as [s | d0 kids0]; [discriminate|]. simpl in Hat.
    destruct (nth_error kids0 i) as [k|] eqn:Hnth; [|discriminate].
    simpl.
    rewrite (@count_update_nth (appendChild rest child) (count_elems p child)
               kids0 i k Hnth (IH _ _ _ Hat)).
    lia.
Qed.

End Injection.

Lemma trigger_found_iff (doc : Dom.Node) :
  Dom.getElementById Dom.export_btn_id doc <> None <-> 1 <= Dom.count_triggers doc.
Proof.
  unfold Dom.getElementById, Dom.count_triggers.
  pose proof (find_first_none (Dom.has_id Dom.export_btn_id) doc) as H.
  destruct (Dom.find_first (Dom.has_id Dom.export_btn_id) doc).
  - split; [|discriminate]. intros _.
    destruct (Dom.count_elems (Dom.has_id Dom.export_btn_id) doc); [|lia].
    destruct H as [_ H]. discriminate (H eq_refl).
  - split; [contradiction|]. destruct H as [H _]. rewrite (H eq_refl). lia.
Qed.

(** What one call does to the number of trigger controls. *)
Lemma addExportButton_count (doc : Dom.Node) :
  Dom.addExportButton doc = doc
  \/ (Dom.count_triggers doc = 0
      /\ Dom.count_triggers (Dom.addExportButton doc) = 1).
Proof.
  unfold Dom.addExportButton.
  destruct (Dom.getElementById Dom.export_btn_id doc) eqn:Hbtn; [now left|].
  assert (Dom.count_triggers doc = 0) as Hzero
      by (apply find_first_none; exact Hbtn).
  destruct (orElse (Dom.querySelector Dom.entityHeaderSelector doc)
                   (Dom.querySelector Dom.headerSelector doc))
    as [header|] eqn:Hheader; [|now left].
  right. split; [assumption|].
  assert (exists d kids, Dom.node_at header doc = Some (Dom.Elem d kids))
    as (d & kids & Hat).
  { unfold orElse, Dom.querySelector in Hheader.
    destruct (Dom.find_first (Dom.matches Dom.entityHeaderSelector) doc) eqn:E.
    - injection Hheader as <-.
      destruct (find_first_some _ _ E) as (d & kids & Hat & _). eauto.
    - destruct (find_first_some _ _ Hheader) as (d & kids & Hat & _). eauto. }
  unfold Dom.count_triggers in *.
  rewrite (count_appendChild (Dom.has_id Dom.export_btn_id) Dom.new_button _ _ Hat).
  rewrite Hzero. reflexivity.
Qed.

Lemma addExportButton_present (doc : Dom.Node) :
  Dom.getElementById Dom.export_btn_id doc <> None -> Dom.addExportButton doc = doc.
Proof.
  intros Hbtn. unfold Dom.addExportButton.
  destruct (Dom.getElementById Dom.export_btn_id doc); [reflexivity|contradiction].
Qed.

Lemma addExportButton_twice (doc : Dom.Node) :
  Dom.addExportButton (Dom.addExportButton doc) = Dom.addExportButton doc.
Proof.
  destruct (addExportButton_count doc) as [Hsame | (_ & Hone)].
  - now rewrite !Hsame.
  - apply addExportButton_present, trigger_found_iff. lia.
Qed.

Lemma addExportButton_at_most_one (doc : Dom.Node) :
  Dom.count_triggers doc <= 1 -> Dom.count_triggers (Dom.addExportButton doc) <= 1.
Proof.
  intros Hle. destruct (addExportButton_count doc) as [-> | (_ & ->)]; lia.
Qed.

(** C9. Where the trigger control exists, [addExportButton] returns the
    document as it is; so calling it twice is calling it once, any number
    of calls on a document with at most one control leaves at most one, and
    so does the observer, whatever changes the page makes that add no
    control of their own. *)
Theorem addExportButton_idempotent (doc : Dom.Node) :
  (Dom.getElementById Dom.export_btn_id doc <> None -> Dom.addExportButton doc = doc)
  /\ Dom.addExportButton (Dom.addExportButton doc) = Dom.addExportButton doc
  /\ (forall n, Nat.iter (S n) Dom.addExportButton doc = Dom.addExportButton doc)
  /\ (Dom.count_triggers doc <= 1 ->
      forall n, Dom.count_triggers (Nat.iter n Dom.addExportButton doc) <= 1)
  /\ (Dom.count_triggers doc <= 1 ->
      forall changes,
        Forall (fun change : Dom.Node -> Dom.Node =>
                  forall d, Dom.count_triggers (change d) <= Dom.count_triggers d)
               changes ->
        Dom.count_triggers (Dom.watch changes doc) <= 1).
Proof.
  split; [apply addExportButton_present|].
  split; [apply addExportButton_twice|].
  split; [|split].
  - induction n as [|n IH]; [reflexivity|].
    change (Nat.iter (S (S n)) Dom.addExportButton doc)
      with (Dom.addExportButton (Nat.iter (S n) Dom.addExportButton doc)).
    rewrite IH. apply addExportButton_twice.
  - intros Hle n. induction n as [|n IH]; [assumption|].
    simpl. now apply addExportButton_at_most_one.
  - intros Hle changes Hall. unfold Dom.watch.
    apply addExportButton_at_most_one in Hle.
    revert Hle. generalize (Dom.addExportButton doc).
    induction Hall as [|change changes Hchange _ IH]; intros d Hd; [assumption|].
    simpl. apply IH, addExportButton_at_most_one.
    specialize (Hchange d). lia.
Qed.

Lemma addExportButton_idempotent_witness :
  Dom.count_triggers (Dom.addExportButton Dom.playlist_document) = 1
  /\ Dom.addExportButton (Dom.addExportButton Dom.playlist_document)
     = Dom.addExportButton Dom.playlist_document
  /\ Dom.count_triggers
       (Nat.iter 5 Dom.addExportButton Dom.playlist_document) <= 1
  /\ Dom.count_triggers
       (Dom.watch [fun d => d; fun _ => Dom.bare_document] Dom.playlist_document) <= 1.
Proof.
  destruct (addExportButton_idempotent (Dom.addExportButton Dom.playlist_document))
    as (Hnoop & _).
  destruct (addExportButton_idempotent Dom.playlist_document)
    as (_ & _ & _ & Hiter & Hwatch).
  assert (Dom.count_triggers Dom.playlist_document <= 1) as Hle
      by (vm_compute; lia).
  split; [vm_compute; reflexivity|].
  split; [apply Hnoop; vm_compute; discriminate|].
  split; [exact (Hiter Hle 5)|].
  apply (Hwatch Hle). repeat constructor; intros d; vm_compute; lia.
Defined.

Lemma control_is_busy_during_cycle_witness :
  button_after (firstn 2 (trace (snd (run_export loading_page ready)))) ready = busy
  /\ click loading_page
        (button_after (firstn 20 (trace (snd (run_export loading_page ready)))) ready)
     = None
  /\ button_after (firstn 3 (trace (snd (run_export loading_page ready)))) ready = busy
  /\ button_after (trace (snd (run_export loading_page ready))) ready = ready.
Proof.
  destruct (control_is_busy_during_cycle loading_page ready)
    as (Hdisabled & Hbusy & Hsleep & Hend & _).
  assert (length (trace (snd (run_export loading_page ready))) = 35) as Hlen
      by (vm_compute; reflexivity).
  assert (nth_error (trace (snd (run_export loading_page ready))) 3
          = Some (EvSleep 700)) as Hnth by (vm_compute; reflexivity).
  split; [apply Hbusy; rewrite Hlen; lia|].
  split; [apply Hdisabled; rewrite Hlen; lia|].
  split; [exact (Hsleep 3 700 Hnth)|exact Hend].
Defined.

(** C8, as stated, fails: a busy control does not keep a second run from
    starting.  While a cycle sleeps, the page rebuilds its header, which
    removes the disabled button; the observer then appends a new button,
    enabled, and a click on it starts another cycle. *)
Lemma rebuilt_header_admits_second_run :
  Dom.control_in (Dom.begin_cycle (Dom.addExportButton Dom.playlist_document))
  = Some busy
  /\ Dom.control_in
       (Dom.addExportButton
          ((fun _ => Dom.playlist_document)
             (Dom.begin_cycle (Dom.addExportButton Dom.playlist_document))))
     = Some ready
  /\ click loading_page ready = Some (run_export loading_page ready)
  /\ ~ no_overlapping_runs.
Proof.
  assert (Dom.control_in (Dom.begin_cycle (Dom.addExportButton Dom.playlist_document))
          = Some busy) as Hbusy by (vm_compute; reflexivity).
  assert (Dom.control_in
            (Dom.addExportButton
               ((fun _ => Dom.playlist_document)
                  (Dom.begin_cycle (Dom.addExportButton Dom.playlist_document))))
          = Some ready) as Hready by (vm_compute; reflexivity).
  split; [exact Hbusy|]. split; [exact Hready|]. split; [reflexivity|].
  intros Hclaim.
  pose proof (Hclaim loading_page (Dom.addExportButton Dom.playlist_document)
                (fun _ => Dom.playlist_document) ready Hbusy Hready) as Hnone.
  discriminate Hnone.
Qed.

(** * Further properties *)

(** ** Trimming *)

Section Trimming.

Lemma trimStart_split (s : jsstring) :
  exists pre, s = pre ++ trimStart s /\ forallb isWhiteSpace pre = true.
Proof.
  induction s as [|c s (pre & Hs & Hpre)]; simpl.
  - exists []. auto.
  - destruct (isWhiteSpace c) eqn:E.
    + exists (c :: pre). simpl. rewrite E, Hpre. split; [now f_equal|reflexivity].
    + exists []. auto.
Qed.

Lemma trimStart_clean (s : jsstring) : starts_clean (trimStart s) = true.
Proof.
  induction s as [|c s IH]; simpl; [reflexivity|].
  destruct (isWhiteSpace c) eqn:E; [assumption|]. simpl. now rewrite E.
Qed.

Lemma forallb_rev {A} (f : A -> bool) (l : list A) :
  forallb f l = true -> forallb f (rev l) = true.
Proof.
  rewrite !forallb_forall. intros Hall x Hin. apply Hall, in_rev, Hin.
Qed.

Lemma starts_clean_prefix (s t : jsstring) :
  starts_clean (s ++ t) = true -> s <> [] -> starts_clean s = true.
Proof. destruct s; [contradiction|auto]. Qed.

(** [trim] removes white space at both ends and nothing else. *)
Lemma trim_spec (s : jsstring) :
  exists pre post,
    s = pre ++ trim s ++ post
    /\ forallb isWhiteSpace pre = true
    /\ forallb isWhiteSpace post = true
    /\ edge_free (trim s) = true.
Proof.
  destruct (trimStart_split s) as (pre & Hs & Hpre).
  destruct (trimStart_split (rev (trimStart s))) as (q & Hq & Hwq).
  assert (trimStart s = trim s ++ rev q) as Hu.
  { unfold trim, trimEnd. rewrite <- rev_app_distr, <- Hq. now rewrite rev_involutive. }
  exists pre, (rev q). split; [now rewrite <- Hu|].
  split; [assumption|]. split; [now apply forallb_rev|].
  unfold edge_free. apply andb_true_iff. split.
  - destruct (trim s) as [|c w] eqn:E; [reflexivity|].
    apply starts_clean_prefix with (t := rev q); [|discriminate].
    rewrite <- Hu. apply trimStart_clean.
  - unfold trim, trimEnd. rewrite rev_involutive. apply trimStart_clean.
Qed.

Lemma array_map_normal {A B} (f : A -> completion B) (xs : list A) :
  forall ys, array_map f xs = Normal ys -> Forall2 (fun x y => f x = Normal y) xs ys.
Proof.
  induction xs as [|x xs IH]; simpl; intros ys.
  - intros [= <-]. constructor.
  - destruct (f x) as [y|] eqn:Hx; simpl; [|discriminate].
    destruct (array_map f xs) as [ys'|]; simpl; [|discriminate].
    intros [= <-]. constructor; auto.
Qed.

(** X1. Whatever title and artist names the parser reads carry no white
    space at either end, and a title taken from an element is the text of
    that element with nothing but white space removed before and after. *)
Theorem titles_and_artists_are_trimmed (row : Row) :
  (forall T, read_title row = Normal T -> edge_free T = true)
  /\ (forall names, read_artist_names row = Normal names ->
                    forallb edge_free names = true)
  /\ (forall el t,
         querySelector row titleSelector = Normal (Some el) ->
         textContent el = Normal t ->
         exists pre post T,
           read_title row = Normal T
           /\ t = pre ++ T ++ post
           /\ forallb isWhiteSpace pre = true
           /\ forallb isWhiteSpace post = true).
Proof.
  split; [|split].
  - intros T. unfold read_title.
    destruct (querySelector row titleSelector) as [[el|]|]; simpl; try discriminate.
    + destruct (textContent el) as [t|]; simpl; [|discriminate].
      intros [= <-]. destruct (trim_spec t) as (_ & _ & _ & _ & _ & H). exact H.
    + intros [= <-]. vm_compute. reflexivity.
  - intros names. unfold read_artist_names.
    destruct (querySelectorAll row artistSelector) as [links|]; simpl; [|discriminate].
    intros Hmap. apply array_map_normal in Hmap.
    induction Hmap as [|a name links names Ha _ IH]; [reflexivity|].
    simpl. rewrite IH, andb_true_r.
    destruct (textContent a) as [t|]; simpl in Ha; [|discriminate].
    injection Ha as <-. destruct (trim_spec t) as (_ & _ & _ & _ & _ & H). exact H.
  - intros el t Hq Ht. destruct (trim_spec t) as (pre & post & Hsplit & Hpre & Hpost & _).
    exists pre, post, (trim t). repeat split; try assumption.
    unfold read_title. rewrite Hq. simpl. now rewrite Ht.
Qed.

Lemma titles_and_artists_are_trimmed_witness :
  edge_free (lit "Levels") = true
  /\ exists pre post T,
       read_title (song_row "  Levels " ["Avicii "]) = Normal T
       /\ lit "  Levels " = pre ++ T ++ post
       /\ forallb isWhiteSpace pre = true
       /\ forallb isWhiteSpace post = true.
Proof.
  destruct (titles_and_artists_are_trimmed (song_row "  Levels " ["Avicii "]))
    as (Htitle & _ & Hkept).
  split.
  - exact (Htitle (lit "Levels") eq_refl).
  - exact (Hkept (element "  Levels ") (lit "  Levels ") eq_refl eq_refl).
Defined.

End Trimming.

(** ** The number of rounds, for every page *)

Lemma bounded_or_stable (obs : nat -> nat) (n : nat) :
  streak_bounded obs n = true \/ exists r, 1 <= r <= n /\ stable_window obs r.
Proof.
  induction n as [|n [Hbounded | (r & Hr & Hwin)]].
  - left. reflexivity.
  - destruct (streak obs (S n) <=? 3) eqn:E.
    + left. unfold streak_bounded in *. rewrite seq_S, forallb_app, Hbounded.
      cbn [forallb andb]. change (1 + n) with (S n). rewrite E. reflexivity.
    + right. exists (S n). split; [lia|].
      apply streak_window. apply Nat.leb_gt in E. exact E.
  - right. exists r. split; [lia|assumption].
Qed.

(** X2. With a scroll container, a cycle performs between 4 and 100 scroll
    rounds; before the round at which it stops no five successive
    observations agree, and it stops short of 100 rounds only at a round
    where they do. *)
Theorem collector_round_count (h : Host) (c : Container) (b : Button) :
  find_scrollContainer h = Some c ->
  exists k,
    run_export h b
    = (Normal tt,
       {| btn := ready; clock := k; trace := export_trace h (polls h c 0 k) k |})
    /\ scroll_triggers (run_export h b) = k
    /\ 4 <= k <= 100
    /\ (forall r, r < k -> ~ stable_window (observed h) r)
    /\ (k < 100 -> stable_window (observed h) k).
Proof.
  intros Hsome.
  destruct (bounded_or_stable (observed h) 100) as [Hbounded | (r & Hr & Hwin)].
  - pose proof (@streak_bounded_spec (observed h) 100 Hbounded) as Hall.
    pose proof (@run_export_exhausts h b c Hsome Hall) as Hrun.
    exists 100. split; [exact Hrun|].
    split; [exact (proj1 (@stops_at_counts h c b 100 Hrun))|].
    split; [lia|]. split; [|lia].
    intros r Hr. destruct r as [|r].
    + intros [H4 _]. lia.
    + apply streak_no_window, Hall. lia.
  - destruct (@first_stable h r Hwin) as (k & Hk & Hwink & Hfirst).
    assert (k <= 100) as Hcap by lia.
    pose proof (@run_export_stops_at h b c k Hsome Hcap Hwink Hfirst) as Hrun.
    exists k. split; [exact Hrun|].
    split; [exact (proj1 (@stops_at_counts h c b k Hrun))|].
    split; [destruct Hwink; lia|]. split; [assumption|]. intros _. assumption.
Qed.

Lemma collector_round_count_witness :
  exists k,
    scroll_triggers (run_export churning_page ready) = k
    /\ 4 <= k <= 100
    /\ (k < 100 -> stable_window (observed churning_page) k).
Proof.
  destruct (@collector_round_count churning_page 1 ready eq_refl)
    as (k & _ & Hk & Hbounds & _ & Hstable).
  exists k. split; [exact Hk|]. split; [exact Hbounds|exact Hstable].
Defined.

(** ** What a trace contains *)

Section Projections.

Variable h : Host.

Lemma flat_map_export_trace {B} (f : Event -> list B) (collected : list Event) (t : nat) :
  flat_map f (export_trace h collected t)
  = f (EvSetTextContent (lit "Exporting...")) ++ f (EvSetDisabled true)
    ++ flat_map f collected
    ++ f (EvExtractSongs (songs_at h t))
    ++ flat_map f (outcome_events h (songs_at h t))
    ++ flat_map f restore_events.
Proof.
  unfold export_trace. rewrite finish_events_split.
  cbn [app flat_map]. rewrite flat_map_app. cbn [flat_map].
  rewrite flat_map_app. reflexivity.
Qed.

Lemma projections_of_polls (c : Container) (n : nat) :
  forall t,
    alerts (polls h c t n) = []
    /\ clipboard_writes (polls h c t n) = []
    /\ downloads (polls h c t n) = []
    /\ scrolled (polls h c t n) = repeat c n
    /\ slept (polls h c t n) = 700 * n
    /\ polled (polls h c t n) = map (observed h) (seq (S t) n).
Proof.
  induction n as [|n IH]; intros t.
  - repeat split; reflexivity.
  - destruct (IH (S t)) as (Ha & Hc & Hd & Hs & Hz & Hp).
    unfold alerts, clipboard_writes, downloads, scrolled, slept, polled in *.
    rewrite polls_S, !flat_map_app, Ha, Hc, Hd, Hs, Hp.
    repeat split; try reflexivity.
    rewrite list_sum_app, Hz. unfold poll_events. simpl. lia.
Qed.

Lemma outcome_alert (songs : list jsstring) :
  alerts (outcome_events h songs) = [outcome_message songs].
Proof.
  unfold outcome_events, outcome_message.
  destruct (length songs =? 0); [reflexivity|].
  destruct (GM_setClipboard_defined h); reflexivity.
Qed.

Lemma alerts_export_trace (collected : list Event) (t : nat) :
  alerts (export_trace h collected t)
  = alerts collected ++ [outcome_message (songs_at h t)].
Proof.
  unfold alerts. rewrite flat_map_export_trace.
  fold (alerts (outcome_events h (songs_at h t))). rewrite outcome_alert.
  cbn [app]. reflexivity.
Qed.

End Projections.

Lemma outcome_message_text (songs : list jsstring) :
  outcome_message songs
  = if length songs =? 0
    then code_units "No songs found! Make sure you are on a playlist or liked songs page."
    else code_units
           ("Exported " ++ NilZero.string_of_uint (Nat.to_uint (length songs))
            ++ " songs!"
            ++ String "010"
                 "Copied to clipboard and downloaded as spotify_songs.txt")%string.
Proof.
  unfold outcome_message. destruct (length songs =? 0); [reflexivity|].
  apply exportedMessage_text.
Qed.

(** X3. A cycle shows one notice when the scroll container is found, the
    outcome: No songs found! without records, Exported N songs! with N
    records.  When the container is not found it shows two: first that the
    container could not be found, and then the outcome all the same. *)
Theorem notices_of_a_cycle (h : Host) (b : Button) :
  let r := run_export h b in
  let songs := songs_at h (clock (snd r)) in
  let outcome :=
    if length songs =? 0
    then code_units "No songs found! Make sure you are on a playlist or liked songs page."
    else code_units
           ("Exported " ++ NilZero.string_of_uint (Nat.to_uint (length songs))
            ++ " songs!"
            ++ String "010"
                 "Copied to clipboard and downloaded as spotify_songs.txt")%string in
  (find_scrollContainer h <> None -> alerts (trace (snd r)) = [outcome])
  /\ (find_scrollContainer h = None ->
      alerts (trace (snd r))
      = [code_units
           "Could not find the scrollable container. Please make sure you're on a playlist or liked songs page.";
         outcome]).
Proof.
  cbv zeta.
  destruct (run_export_shape h b) as (collected & t & -> & Hshape).
  cbn [snd trace clock]. rewrite alerts_export_trace, outcome_message_text.
  destruct Hshape as [(Hnone & -> & _) | (c & Hsome & -> & _)].
  - split; [intros Hne; contradiction|]. intros _. reflexivity.
  - split; [|intros Hnone; congruence]. intros _.
    destruct (projections_of_polls h c t 0) as (-> & _). reflexivity.
Qed.

Lemma notices_of_a_cycle_witness :
  alerts (trace (snd (run_export loading_page ready)))
  = [code_units
       ("Exported 37 songs!"
        ++ String "010" "Copied to clipboard and downloaded as spotify_songs.txt")%string]
  /\ alerts (trace (snd (run_export stray_page ready)))
     = [code_units
          "Could not find the scrollable container. Please make sure you're on a playlist or liked songs page.";
        code_units
          ("Exported 2 songs!"
           ++ String "010" "Copied to clipboard and downloaded as spotify_songs.txt")%string]
  /\ alerts (trace (snd (run_export blank_page ready)))
     = [code_units
          "Could not find the scrollable container. Please make sure you're on a playlist or liked songs page.";
        code_units "No songs found! Make sure you are on a playlist or liked songs page."].
Proof.
  destruct (notices_of_a_cycle loading_page ready) as (Hfound & _).
  destruct (notices_of_a_cycle stray_page ready) as (_ & Hstray).
  destruct (notices_of_a_cycle blank_page ready) as (_ & Hblank).
  assert (find_scrollContainer loading_page <> None) as Hne by (vm_compute; discriminate).
  assert (length (songs_at loading_page (clock (snd (run_export loading_page ready))))
          = 37) as E1 by (vm_compute; reflexivity).
  assert (length (songs_at stray_page (clock (snd (run_export stray_page ready))))
          = 2) as E2 by (vm_compute; reflexivity).
  assert (length (songs_at blank_page (clock (snd (run_export blank_page ready))))
          = 0) as E3 by (vm_compute; reflexivity).
  pose proof (Hfound Hne) as H1. pose proof (Hstray eq_refl) as H2.
  pose proof (Hblank eq_refl) as H3.
  rewrite E1 in H1. rewrite E2 in H2. rewrite E3 in H3.
  split; [exact H1|]. split; [exact H2|exact H3].
Defined.

(** The loop leaves before its rounds are used up only once the streak,
    counted from where it starts, has reached 4. *)
Lemma scroll_loop_rounds (h : Host) (c : Container) (fuel : nat) :
  forall (m : Machine) (lastCount sameCountTimes : nat),
  exists n,
    scroll_loop h c fuel lastCount sameCountTimes m = (Normal tt, advance h c n m)
    /\ n <= fuel
    /\ (n = fuel \/ 4 <= sameCountTimes + n).
Proof.
  induction fuel as [|fuel IH]; intros m lastCount sameCountTimes.
  - exists 0. split; [|split; [lia|now left]].
    unfold scroll_loop, ret. now rewrite advance_0.
  - rewrite scroll_loop_step. cbv zeta.
    destruct (observed h (S (clock m)) =? lastCount).
    + destruct (3 <? S sameCountTimes) eqn:E.
      * apply Nat.ltb_lt in E. exists 1. split; [reflexivity|]. split; lia.
      * destruct (IH (advance h c 1 m) (observed h (S (clock m))) (S sameCountTimes))
          as (n & -> & Hn & Hstop).
        exists (1 + n). rewrite advance_add. split; [reflexivity|]. split; lia.
    + destruct (IH (advance h c 1 m) (observed h (S (clock m))) 0)
        as (n & -> & Hn & Hstop).
      exists (1 + n). rewrite advance_add. split; [reflexivity|]. split; lia.
Qed.

Lemma run_export_found_rounds (h : Host) (c : Container) (b : Button) :
  find_scrollContainer h = Some c ->
  exists k,
    run_export h b
    = (Normal tt,
       {| btn := ready; clock := k; trace := export_trace h (polls h c 0 k) k |})
    /\ 4 <= k <= 100.
Proof.
  intros Hsome.
  destruct (scroll_loop_rounds h c 100 collecting 0 0) as (k & Hloop & Hk & Hstop).
  exists k. split; [exact (@run_export_found h b c k Hsome Hloop)|]. lia.
Qed.

(** X4. The scroll container is looked up once: every scroll of a cycle
    goes to the element found at the start, once per round, and the cycle
    waits 700 ms per round, between 2.8 and 70 seconds in all; without a
    container it neither scrolls nor waits. *)
Theorem scrolls_and_waits (h : Host) (b : Button) :
  let r := run_export h b in
  slept (trace (snd r)) = 700 * scroll_triggers r
  /\ length (polled (trace (snd r))) = scroll_triggers r
  /\ (forall c, find_scrollContainer h = Some c ->
                scrolled (trace (snd r)) = repeat c (scroll_triggers r)
                /\ 700 * 4 <= slept (trace (snd r)) <= 700 * 100)
  /\ (find_scrollContainer h = None ->
      scrolled (trace (snd r)) = [] /\ slept (trace (snd r)) = 0).
Proof.
  cbv zeta.
  assert (forall collected t,
             slept (export_trace h collected t) = slept collected
             /\ polled (export_trace h collected t) = polled collected
             /\ scrolled (export_trace h collected t) = scrolled collected) as Hproj.
  { intros collected t. unfold slept, polled, scrolled.
    rewrite !flat_map_export_trace. unfold outcome_events.
    destruct (length (songs_at h t) =? 0), (GM_setClipboard_defined h);
      cbn [flat_map app restore_events]; rewrite ?app_nil_r; repeat split. }
  destruct (find_scrollContainer h) as [c|] eqn:Hfind.
  - destruct (@run_export_found_rounds h c b Hfind) as (k & Hrun & Hk).
    destruct (@stops_at_counts h c b k Hrun) as (Hs & _). rewrite Hs.
    rewrite Hrun. cbn [snd trace].
    destruct (Hproj (polls h c 0 k) k) as (-> & -> & ->).
    destruct (projections_of_polls h c k 0) as (_ & _ & _ & -> & -> & ->).
    rewrite length_map, length_seq.
    split; [reflexivity|]. split; [reflexivity|].
    split; [|discriminate]. intros c' [= <-]. split; [reflexivity|lia].
  - pose proof (run_export_not_found h b Hfind) as Hrun.
    unfold scroll_triggers. rewrite Hrun. cbn [snd trace].
    destruct (count_sinks_not_found h) as (Hs & _). cbv zeta in Hs. rewrite Hs.
    destruct (Hproj [EvAlert containerNotFoundMessage] 0) as (-> & -> & ->).
    split; [reflexivity|]. split; [reflexivity|].
    split; [discriminate|]. intros _. split; reflexivity.
Qed.

Lemma scrolls_and_waits_witness :
  scrolled (trace (snd (run_export churning_page ready)))
  = repeat 1 (scroll_triggers (run_export churning_page ready))
  /\ 700 * 4 <= slept (trace (snd (run_export churning_page ready))) <= 700 * 100
  /\ scrolled (trace (snd (run_export stray_page ready))) = [].
Proof.
  destruct (scrolls_and_waits churning_page ready) as (_ & _ & Hfound & _).
  destruct (scrolls_and_waits stray_page ready) as (_ & _ & _ & Hnone).
  destruct (Hfound 1 eq_refl) as (Hscrolled & Hslept).
  split; [exact Hscrolled|]. split; [exact Hslept|exact (proj1 (Hnone eq_refl))].
Defined.

(** ** The text that leaves the page *)

Lemma line_feeds_app (s t : jsstring) :
  line_feeds (s ++ t) = line_feeds s + line_feeds t.
Proof. apply count_occ_app. Qed.

Lemma line_feeds_join (songs : list jsstring) :
  songs <> [] ->
  line_feeds (join LF songs) + 1 = length songs + list_sum (map line_feeds songs).
Proof.
  induction songs as [|x [|y rest] IH]; intros Hne; [contradiction| |].
  - simpl. lia.
  - change (join LF (x :: y :: rest)) with (x ++ LF ++ join LF (y :: rest)).
    rewrite !line_feeds_app. specialize (IH ltac:(discriminate)).
    change (line_feeds LF) with 1.
    change (list_sum (map line_feeds (x :: y :: rest)))
      with (line_feeds x + list_sum (map line_feeds (y :: rest))).
    change (length (x :: y :: rest)) with (S (length (y :: rest))).
    lia.
Qed.

Lemma outputs_of_cycle_text (h : Host) (b : Button) :
  let r := run_export h b in
  let songs := songs_at h (clock (snd r)) in
  (songs = [] -> downloads (trace (snd r)) = [])
  /\ (songs <> [] ->
      downloads (trace (snd r))
      = [(lit "spotify_songs.txt", lit "text/plain", join LF songs)]).
Proof.
  cbv zeta.
  destruct (run_export_shape h b) as (collected & t & -> & Hshape).
  cbn [snd trace clock].
  assert (downloads collected = []) as Hd.
  { destruct Hshape as [(_ & -> & _) | (c & _ & -> & _)]; [reflexivity|].
    destruct (projections_of_polls h c t 0) as (_ & _ & -> & _). reflexivity. }
  unfold downloads in *. rewrite !flat_map_export_trace, Hd.
  split.
  - intros Hempty. rewrite (outcome_empty h Hempty). reflexivity.
  - intros Hne. rewrite (outcome_nonempty h Hne).
    destruct (GM_setClipboard_defined h); reflexivity.
Qed.

(** The outputs of a cycle, in terms of [join]. *)
Lemma cycle_outputs (h : Host) (b : Button) :
  let r := run_export h b in
  let songs := songs_at h (clock (snd r)) in
  (songs = [] ->
   clipboard_writes (trace (snd r)) = [] /\ downloads (trace (snd r)) = [])
  /\ (songs <> [] ->
      clipboard_writes (trace (snd r)) = [(GM_setClipboard_defined h, join LF songs)]
      /\ downloads (trace (snd r))
         = [(lit "spotify_songs.txt", lit "text/plain", join LF songs)]).
Proof.
  cbv zeta.
  destruct (run_export_shape h b) as (collected & t & -> & Hshape).
  cbn [snd trace clock].
  assert (clipboard_writes collected = [] /\ downloads collected = []) as (Hc & Hd).
  { destruct Hshape as [(_ & -> & _) | (c & _ & -> & _)]; [split; reflexivity|].
    destruct (projections_of_polls h c t 0) as (_ & -> & -> & _). split; reflexivity. }
  unfold clipboard_writes, downloads in *. rewrite !flat_map_export_trace, Hc, Hd.
  split.
  - intros Hempty. rewrite (outcome_empty h Hempty). split; reflexivity.
  - intros Hne. rewrite (outcome_nonempty h Hne).
    destruct (GM_setClipboard_defined h); split; reflexivity.
Qed.

(** X5. A cycle that holds records writes one and the same text once to
    the clipboard, through [GM_setClipboard] when that is defined and
    through the navigator otherwise, and once to a file named
    spotify_songs.txt of type text/plain; the text is the first record
    followed by every further record after a line feed.  A cycle without
    records writes neither. *)
Theorem outputs_of_a_cycle (h : Host) (b : Button) :
  let r := run_export h b in
  let songs := songs_at h (clock (snd r)) in
  let text :=
    match songs with
    | [] => []
    | first :: rest => first ++ concat (map (fun song => 10%N :: song) rest)
    end in
  (songs = [] ->
   clipboard_writes (trace (snd r)) = [] /\ downloads (trace (snd r)) = [])
  /\ (songs <> [] ->
      clipboard_writes (trace (snd r)) = [(GM_setClipboard_defined h, text)]
      /\ downloads (trace (snd r))
         = [(code_units "spotify_songs.txt", code_units "text/plain", text)]).
Proof.
  cbv zeta. destruct (cycle_outputs h b) as (Hnone & Hsome). cbv zeta in Hnone, Hsome.
  split; [exact Hnone|]. intros Hne.
  destruct (Hsome Hne) as (Hclip & Hfile).
  rewrite join_spelled in Hclip, Hfile. split; [exact Hclip|exact Hfile].
Qed.

Lemma outputs_of_a_cycle_witness :
  clipboard_writes (trace (snd (run_export blank_page ready))) = []
  /\ downloads (trace (snd (run_export blank_page ready))) = []
  /\ clipboard_writes (trace (snd (run_export churning_page ready)))
     = [(false,
         code_units
           ("Wake Me Up - Avicii" ++ String "010" "Wake Me Up - Avicii"
            ++ String "010" "Wake Me Up - Avicii"
            ++ String "010" "Wake Me Up - Avicii")%string)]
  /\ downloads (trace (snd (run_export churning_page ready)))
     = [(code_units "spotify_songs.txt", code_units "text/plain",
         code_units
           ("Wake Me Up - Avicii" ++ String "010" "Wake Me Up - Avicii"
            ++ String "010" "Wake Me Up - Avicii"
            ++ String "010" "Wake Me Up - Avicii")%string)].
Proof.
  destruct (outputs_of_a_cycle blank_page ready) as (Hblank & _).
  destruct (outputs_of_a_cycle churning_page ready) as (_ & Hchurn).
  assert (songs_at blank_page (clock (snd (run_export blank_page ready))) = [])
    as E0 by (vm_compute; reflexivity).
  assert (songs_at churning_page (clock (snd (run_export churning_page ready)))
          = [lit "Wake Me Up - Avicii"; lit "Wake Me Up - Avicii";
             lit "Wake Me Up - Avicii"; lit "Wake Me Up - Avicii"])
    as E1 by (vm_compute; reflexivity).
  destruct (Hblank E0) as (Hc0 & Hd0).
  rewrite E1 in Hchurn. destruct (Hchurn ltac:(discriminate)) as (Hc1 & Hd1).
  split; [exact Hc0|]. split; [exact Hd0|]. split; [exact Hc1|exact Hd1].
Defined.

Lemma no_line_feeds (songs : list jsstring) :
  Forall (fun song => line_feeds song = 0) songs ->
  list_sum (map line_feeds songs) = 0.
Proof.
  induction 1 as [|x l Hx _ IH]; [reflexivity|]. simpl. rewrite Hx, IH. reflexivity.
Qed.

(** X6. The downloaded text has one line feed fewer than there are
    records, plus the line feeds that the records themselves contain: one
    line per song exactly when no title or artist holds a line feed. *)
Theorem exported_text_lines (h : Host) (b : Button) (name mime text : jsstring) :
  let r := run_export h b in
  let songs := songs_at h (clock (snd r)) in
  In (name, mime, text) (downloads (trace (snd r))) ->
  line_feeds text + 1 = length songs + list_sum (map line_feeds songs)
  /\ (Forall (fun song => line_feeds song = 0) songs ->
      line_feeds text + 1 = length songs).
Proof.
  cbv zeta. intros Hin.
  destruct (outputs_of_cycle_text h b) as (Hnone & Hsome).
  destruct (songs_at h (clock (snd (run_export h b)))) as [|song songs] eqn:E.
  - rewrite (Hnone eq_refl) in Hin. contradiction.
  - rewrite (Hsome ltac:(discriminate)) in Hin.
    destruct Hin as [[= _ _ <-] | []].
    pose proof (@line_feeds_join (song :: songs) ltac:(discriminate)) as Hlines.
    split; [exact Hlines|]. intros Hclean.
    rewrite (no_line_feeds Hclean), Nat.add_0_r in Hlines. exact Hlines.
Qed.

Lemma exported_text_lines_witness :
  line_feeds (lit "Wake Me Up - Avicii" ++ LF ++ lit "Wake Me Up - Avicii") + 1 = 2.
Proof.
  assert (In (lit "spotify_songs.txt", lit "text/plain",
              lit "Wake Me Up - Avicii" ++ LF ++ lit "Wake Me Up - Avicii")
             (downloads (trace (snd (run_export stray_page ready))))) as Hin
      by (vm_compute; left; reflexivity).
  destruct (@exported_text_lines stray_page ready _ _ _ Hin) as (_ & Hclean).
  assert (Forall (fun song => line_feeds song = 0)
                 (songs_at stray_page (clock (snd (run_export stray_page ready)))))
    as Hall by (vm_compute; repeat constructor).
  assert (length (songs_at stray_page (clock (snd (run_export stray_page ready)))) = 2)
    as Hlen by (vm_compute; reflexivity).
  rewrite <- Hlen. exact (Hclean Hall).
Defined.

Lemma polled_found (h : Host) (c : Container) (k : nat) :
  polled (export_trace h (polls h c 0 k) k) = map (observed h) (seq 1 k).
Proof.
  unfold polled. rewrite flat_map_export_trace. unfold outcome_events.
  destruct (projections_of_polls h c k 0) as (_ & _ & _ & _ & _ & Hp).
  unfold polled in Hp. rewrite Hp.
  destruct (length (songs_at h k) =? 0), (GM_setClipboard_defined h);
    cbn [flat_map app restore_events]; rewrite ?app_nil_r; reflexivity.
Qed.

(** X7. With a scroll container, the records of a cycle come from the rows
    that its last poll counted: their number is that count less the rows
    on which a read throws, so never more than the count, and equal to it
    when every row reads well. *)
Theorem exported_count_within_last_poll (h : Host) (c : Container) (b : Button) :
  find_scrollContainer h = Some c ->
  let r := run_export h b in
  let rows := rows_at h (clock (snd r)) in
  let songs := songs_at h (clock (snd r)) in
  In (EvExtractSongs songs) (trace (snd r))
  /\ last (polled (trace (snd r))) 0 = length rows
  /\ length songs + length (filter raises rows) = last (polled (trace (snd r))) 0
  /\ length songs <= last (polled (trace (snd r))) 0
  /\ (forallb well_formed rows = true ->
      length songs = last (polled (trace (snd r))) 0).
Proof.
  intros Hsome. cbv zeta.
  destruct (@run_export_found_rounds h c b Hsome) as (k & Hrun & Hk).
  destruct (@stops_at_counts h c b k Hrun) as (_ & _ & Hin).
  rewrite Hrun in *. cbn [snd trace clock] in *.
  rewrite polled_found.
  assert (last (map (observed h) (seq 1 k)) 0 = length (rows_at h k)) as Hlast.
  { destruct k as [|k]; [lia|].
    rewrite seq_S, map_app. cbn [map]. rewrite last_last. reflexivity. }
  rewrite Hlast. unfold songs_at in *. rewrite pushed_length.
  pose proof (filter_partition_length (rows_at h k)) as Hsum.
  split; [exact Hin|]. split; [reflexivity|]. split; [lia|]. split; [lia|].
  intros Hall.
  assert (length (filter raises (rows_at h k)) = 0) as Hzero; [|lia].
  clear Hsum Hlast Hin Hrun. rewrite forallb_forall in Hall.
  induction (rows_at h k) as [|row rows IH]; [reflexivity|].
  simpl. pose proof (Hall row (or_introl eq_refl)) as Hrow.
  unfold well_formed in Hrow. destruct (raises row); [discriminate|].
  apply IH. intros x Hx. apply Hall. now right.
Qed.

Lemma exported_count_within_last_poll_witness :
  last (polled (trace (snd (run_export churning_page ready)))) 0 = 6
  /\ length (songs_at churning_page (clock (snd (run_export churning_page ready)))) = 4
  /\ length (songs_at loading_page (clock (snd (run_export loading_page ready))))
     = last (polled (trace (snd (run_export loading_page ready)))) 0.
Proof.
  destruct (@exported_count_within_last_poll churning_page 1 ready eq_refl)
    as (_ & Hlast & Hsum & _).
  destruct (@exported_count_within_last_poll loading_page 7 ready eq_refl)
    as (_ & _ & _ & _ & Hall).
  assert (length (rows_at churning_page (clock (snd (run_export churning_page ready))))
          = 6) as Hrows by (vm_compute; reflexivity).
  assert (length (filter raises
                    (rows_at churning_page
                       (clock (snd (run_export churning_page ready))))) = 2)
    as Hbad by (vm_compute; reflexivity).
  assert (forallb well_formed
            (rows_at loading_page (clock (snd (run_export loading_page ready))))
          = true) as Hgood by (vm_compute; reflexivity).
  rewrite Hbad, Hlast, Hrows in Hsum.
  split; [rewrite Hlast; exact Hrows|]. split; [lia|exact (Hall Hgood)].
Defined.

(** X8. Extraction distributes over a snapshot cut in two: the records of
    the whole are those of the first part followed by those of the second,
    nothing is merged or removed as a duplicate, and there are never more
    records than rows. *)
Theorem extractSongs_concatenates (front back : list Row) :
  exists first second,
    extractSongs front = Normal first
    /\ extractSongs back = Normal second
    /\ extractSongs (front ++ back) = Normal (first ++ second)
    /\ extractSongs (front ++ front) = Normal (first ++ first)
    /\ length (first ++ second) <= length front + length back.
Proof.
  exists (flat_map pushed front), (flat_map pushed back).
  rewrite !extractSongs_pushed, !flat_map_app, length_app, !pushed_length.
  repeat split.
  pose proof (filter_partition_length front). pose proof (filter_partition_length back).
  lia.
Qed.

(** ** Where the trigger control goes *)

Lemma nth_error_update_nth {A} (f : A -> A) (l : list A) :
  forall i x, nth_error l i = Some x -> nth_error (Dom.update_nth i f l) i = Some (f x).
Proof.
  induction l as [|y l IH]; intros [|i] x; simpl; try discriminate.
  - now intros [= ->].
  - apply IH.
Qed.

Lemma node_at_appendChild (child : Dom.Node) (path : Dom.Path) :
  forall n d kids,
    Dom.node_at path n = Some (Dom.Elem d kids) ->
    Dom.node_at path (Dom.appendChild path child n)
    = Some (Dom.Elem d (kids ++ [child])).
Proof.
  induction path as [|i rest IH]; intros n d kids Hat.
  - simpl in Hat. injection Hat as ->. reflexivity.
  - destruct n as [s | d0 kids0]; [discriminate|]. simpl in Hat.
    destruct (nth_error kids0 i) as [k|] eqn:Hnth; [|discriminate].
    simpl. rewrite (nth_error_update_nth _ _ _ Hnth). now apply IH.
Qed.

(** The header element that the script picks, when it picks one. *)
Lemma find_header_some (doc : Dom.Node) (header : Dom.Path) :
  find_header doc = Some header ->
  exists d kids,
    Dom.node_at header doc = Some (Dom.Elem d kids)
    /\ (Dom.matches Dom.entityHeaderSelector d = true
        \/ (Dom.querySelector Dom.entityHeaderSelector doc = None
            /\ Dom.matches Dom.headerSelector d = true)).
Proof.
  unfold find_header, orElse, Dom.querySelector.
  destruct (Dom.find_first (Dom.matches Dom.entityHeaderSelector) doc) as [e|] eqn:E.
  - intros [= <-]. destruct (find_first_some _ _ E) as (d & kids & Hat & Hm).
    exists d, kids. auto.
  - intros Hh. destruct (find_first_some _ _ Hh) as (d & kids & Hat & Hm).
    exists d, kids. auto.
Qed.

(** X9. [addExportButton] only ever adds: when the control is absent and
    a header is found, the document gains the one new button and nothing
    else changes in number; in every other case the document is returned
    as it is.  So the number of trigger controls stays what it was, except
    that it goes from 0 to 1 where there is a header. *)
Theorem addExportButton_adds_only (doc : Dom.Node) (p : Dom.ElemData -> bool) :
  (Dom.getElementById Dom.export_btn_id doc = None ->
   find_header doc <> None ->
   count_elems_grows p doc)
  /\ (Dom.getElementById Dom.export_btn_id doc <> None \/ find_header doc = None ->
      Dom.addExportButton doc = doc)
  /\ Dom.count_triggers (Dom.addExportButton doc)
     = match Dom.count_triggers doc, find_header doc with
       | 0, Some _ => 1
       | n, _ => n
       end.
Proof.
  assert (Dom.getElementById Dom.export_btn_id doc = None ->
          find_header doc <> None -> count_elems_grows p doc) as Hgrow.
  { intros Hbtn Hheader. unfold count_elems_grows, Dom.addExportButton.
    rewrite Hbtn. fold (find_header doc).
    destruct (find_header doc) as [header|] eqn:Hh; [|contradiction].
    destruct (find_header_some _ Hh) as (d & kids & Hat & _).
    apply (count_appendChild p Dom.new_button _ _ Hat). }
  assert (Dom.getElementById Dom.export_btn_id doc <> None \/ find_header doc = None ->
          Dom.addExportButton doc = doc) as Hsame.
  { intros Hcase. unfold Dom.addExportButton. fold (find_header doc).
    destruct (Dom.getElementById Dom.export_btn_id doc); [reflexivity|].
    destruct Hcase as [Hne | ->]; [contradiction|reflexivity]. }
  split; [exact Hgrow|]. split; [exact Hsame|].
  pose proof (trigger_found_iff doc) as Hfound.
  destruct (Dom.count_triggers doc) as [|n] eqn:Hcount.
  - assert (Dom.getElementById Dom.export_btn_id doc = None) as Hbtn.
    { destruct (Dom.getElementById Dom.export_btn_id doc); [|reflexivity].
      assert (1 <= 0) by (apply Hfound; discriminate). lia. }
    destruct (find_header doc) as [header|] eqn:Hh.
    + destruct (addExportButton_count doc) as [Hsame' | (_ & Hone)]; [|exact Hone].
      exfalso. unfold Dom.addExportButton in Hsame'. rewrite Hbtn in Hsame'.
      fold (find_header doc) in Hsame'. rewrite Hh in Hsame'.
      destruct (find_header_some _ Hh) as (d & kids & Hat & _).
      pose proof (count_appendChild (Dom.has_id Dom.export_btn_id)
                    Dom.new_button _ _ Hat) as Hc.
      rewrite Hsame' in Hc. change (Dom.count_elems (Dom.has_id Dom.export_btn_id)
                                      Dom.new_button) with 1 in Hc. lia.
    + rewrite (Hsame (or_intror eq_refl)). exact Hcount.
  - assert (Dom.getElementById Dom.export_btn_id doc <> None) as Hbtn
        by (apply Hfound; lia).
    rewrite (Hsame (or_introl Hbtn)). rewrite Hcount.
    destruct (find_header doc); reflexivity.
Qed.

Lemma addExportButton_adds_only_witness :
  Dom.count_elems (fun _ => true) (Dom.addExportButton Dom.playlist_document)
  = Dom.count_elems (fun _ => true) Dom.playlist_document + 1
  /\ Dom.addExportButton Dom.bare_document = Dom.bare_document
  /\ Dom.count_triggers (Dom.addExportButton Dom.playlist_document) = 1.
Proof.
  destruct (addExportButton_adds_only Dom.playlist_document (fun _ => true))
    as (Hgrow & _ & Hcount).
  destruct (addExportButton_adds_only Dom.bare_document (fun _ => true))
    as (_ & Hsame & _).
  assert (find_header Dom.playlist_document <> None) as Hheader
      by (vm_compute; discriminate).
  split; [exact (Hgrow eq_refl Hheader)|].
  split; [exact (Hsame (or_intror eq_refl))|exact Hcount].
Defined.

(** The search of [find_first] passes over every child before the one in
    which it finds something. *)
Lemma scan_children_first (f : Dom.Node -> option Dom.Path) (ks : list Dom.Node) :
  forall i path,
    Dom.scan_children f i ks = Some path ->
    exists j k q,
      nth_error ks j = Some k /\ f k = Some q /\ path = (i + j) :: q
      /\ forall j' k', j' < j -> nth_error ks j' = Some k' -> f k' = None.
Proof.
  induction ks as [|k ks IH]; intros i path; simpl; [discriminate|].
  destruct (f k) as [q|] eqn:E.
  - intros [= <-]. exists 0, k, q. rewrite Nat.add_0_r.
    repeat split; auto. intros j' k' Hlt. lia.
  - intros Hscan. destruct (IH _ _ Hscan) as (j & k0 & q & Hnth & Hf & -> & Hearlier).
    exists (S j), k0, q. split; [exact Hnth|]. split; [exact Hf|].
    split; [f_equal; lia|].
    intros [|j'] k' Hlt Hnth'.
    + simpl in Hnth'. injection Hnth' as <-. exact E.
    + simpl in Hnth'. apply (Hearlier j' k'); [lia|exact Hnth'].
Qed.

Lemma find_first_present (p : Dom.ElemData -> bool) (q : Dom.Path) :
  forall n d kids,
    Dom.node_at q n = Some (Dom.Elem d kids) -> p d = true ->
    Dom.find_first p n <> None.
Proof.
  induction q as [|i q IH]; intros n d kids Hat Hp.
  - simpl in Hat. injection Hat as ->. simpl. rewrite Hp. discriminate.
  - destruct n as [s | d0 kids0]; [discriminate|]. simpl in Hat.
    destruct (nth_error kids0 i) as [k|] eqn:Hnth; [|discriminate].
    simpl. destruct (p d0); [discriminate|].
    intros Hscan. apply scan_children_none in Hscan.
    rewrite Forall_forall in Hscan.
    apply (IH k d kids Hat Hp), Hscan. eapply nth_error_In. eassumption.
Qed.

(** [find_first] returns the first match in document order. *)
Lemma find_first_least (p : Dom.ElemData -> bool) (n : Dom.Node) :
  forall path,
    Dom.find_first p n = Some path ->
    forall q d kids,
      Dom.node_at q n = Some (Dom.Elem d kids) -> p d = true ->
      q = path \/ Dom.before path q = true.
Proof.
  induction n as [s | d0 kids0 IH] using Node_forall_ind; intros path; simpl;
    [discriminate|].
  destruct (p d0) eqn:Hp0.
  - intros [= <-] [|i q] d kids _ _; [now left|now right].
  - intros Hscan q d kids Hat Hp.
    destruct (scan_children_first _ _ _ Hscan)
      as (j & k & pq & Hnth & Hf & -> & Hearlier).
    simpl. destruct q as [|i q].
    + simpl in Hat. injection Hat as -> _. congruence.
    + simpl in Hat. destruct (nth_error kids0 i) as [ki|] eqn:Hi; [|discriminate].
      destruct (lt_eq_lt_dec i j) as [[Hlt | ->] | Hgt].
      * exfalso. eapply find_first_present; [exact Hat|exact Hp|].
        exact (Hearlier i ki Hlt Hi).
      * rewrite Hnth in Hi. injection Hi as <-.
        rewrite Forall_forall in IH.
        destruct (IH k (nth_error_In _ _ Hnth) pq Hf q d kids Hat Hp) as [-> | Hb].
        -- now left.
        -- right. rewrite Nat.eqb_refl, Hb. apply orb_true_r.
      * right. apply orb_true_iff. left. apply Nat.ltb_lt. exact Hgt.
Qed.

Lemma matches_entityHeader (d : Dom.ElemData) :
  Dom.matches Dom.entityHeaderSelector d = true
  <-> Dom.getAttribute "data-testid" d = Some "entityHeader".
Proof.
  unfold Dom.matches, Dom.entityHeaderSelector.
  cbn [sel_tag sel_attrs forallb fst snd]. rewrite andb_true_r, andb_true_l.
  destruct (Dom.getAttribute "data-testid" d) as [v|].
  - rewrite String.eqb_eq. split; congruence.
  - split; discriminate.
Qed.

Lemma matches_header (d : Dom.ElemData) :
  Dom.matches Dom.headerSelector d = true <-> Dom.localName d = "header".
Proof.
  unfold Dom.matches, Dom.headerSelector.
  cbn [sel_tag sel_attrs forallb]. rewrite andb_true_r, String.eqb_eq.
  split; congruence.
Qed.

(** X10. When the control is added it becomes the last child of the
    header element, after the children that were there.  The header is the
    element with the test id entityHeader that comes first in document
    order; only when no element of the page has that test id is it the
    first element with the tag header.  Afterwards the control is found by
    its id. *)
Theorem button_goes_last_in_header (doc : Dom.Node) (header : Dom.Path) :
  Dom.getElementById Dom.export_btn_id doc = None ->
  find_header doc = Some header ->
  exists d kids,
    Dom.node_at header doc = Some (Dom.Elem d kids)
    /\ ((Dom.getAttribute "data-testid" d = Some "entityHeader"
         /\ forall q d' kids',
              Dom.node_at q doc = Some (Dom.Elem d' kids') ->
              Dom.getAttribute "data-testid" d' = Some "entityHeader" ->
              q = header \/ Dom.before header q = true)
        \/ ((forall q d' kids',
                Dom.node_at q doc = Some (Dom.Elem d' kids') ->
                Dom.getAttribute "data-testid" d' <> Some "entityHeader")
            /\ Dom.localName d = "header"
            /\ forall q d' kids',
                 Dom.node_at q doc = Some (Dom.Elem d' kids') ->
                 Dom.localName d' = "header" ->
                 q = header \/ Dom.before header q = true))
    /\ Dom.node_at header (Dom.addExportButton doc)
       = Some (Dom.Elem d (kids ++ [Dom.new_button]))
    /\ Dom.getElementById Dom.export_btn_id (Dom.addExportButton doc) <> None.
Proof.
  intros Hbtn Hh.
  destruct (find_header_some _ Hh) as (d & kids & Hat & _).
  exists d, kids. split; [exact Hat|]. split.
  - unfold find_header, orElse, Dom.querySelector in Hh.
    destruct (Dom.find_first (Dom.matches Dom.entityHeaderSelector) doc) as [e|] eqn:E.
    + injection Hh as <-. left.
      destruct (find_first_some _ _ E) as (d1 & kids1 & Hat1 & Hm).
      rewrite Hat in Hat1. injection Hat1 as <- <-.
      split; [now apply matches_entityHeader|].
      intros q d' kids' Hq Hd'.
      eapply find_first_least; [exact E|exact Hq|now apply matches_entityHeader].
    + right.
      destruct (find_first_some _ _ Hh) as (d1 & kids1 & Hat1 & Hm).
      rewrite Hat in Hat1. injection Hat1 as <- <-.
      split; [|split; [now apply matches_header|]].
      * intros q d' kids' Hq.
        intros Hd''. apply matches_entityHeader in Hd''.
        eapply find_first_present; [exact Hq|exact Hd''|exact E].
      * intros q d' kids' Hq Hd'.
        eapply find_first_least; [exact Hh|exact Hq|now apply matches_header].
  - assert (Dom.addExportButton doc = Dom.appendChild header Dom.new_button doc) as ->.
    { unfold Dom.addExportButton. rewrite Hbtn. fold (find_header doc). now rewrite Hh. }
    split; [now apply node_at_appendChild|].
    apply trigger_found_iff. unfold Dom.count_triggers.
    rewrite (count_appendChild (Dom.has_id Dom.export_btn_id) Dom.new_button _ _ Hat).
    change (Dom.count_elems (Dom.has_id Dom.export_btn_id) Dom.new_button) with 1. lia.
Qed.

Lemma button_goes_last_in_header_witness :
  find_header Dom.two_header_document = Some [1]
  /\ Dom.before [0] [1] = true
  /\ Dom.before [1] [2] = true
  /\ exists d,
       Dom.node_at [1] (Dom.addExportButton Dom.two_header_document)
       = Some (Dom.Elem d [Dom.Text (lit "Liked Songs"); Dom.new_button])
       /\ Dom.getAttribute "data-testid" d = Some "entityHeader".
Proof.
  split; [reflexivity|]. split; [reflexivity|]. split; [reflexivity|].
  destruct (@button_goes_last_in_header Dom.two_header_document [1] eq_refl eq_refl)
    as (d & kids & Hat & _ & Hadded & _).
  injection Hat as <- <-.
  eexists. split; [exact Hadded|reflexivity].
Defined.

(** A page whose changes all add or remove nodes: [watch] is [observe]. *)
Lemma watch_is_observe (changes : list (Dom.Node -> Dom.Node)) (doc : Dom.Node) :
  Dom.watch changes doc = Dom.observe (map Dom.ChildList changes) doc.
Proof.
  unfold Dom.watch, Dom.observe. generalize (Dom.addExportButton doc).
  induction changes as [|f changes IH]; intros d; [reflexivity|]. simpl. apply IH.
Qed.

(** X11. The observer restores the control after a change that adds or
    removes nodes: if such a change leaves a document with a header, then
    after the callback the document holds a trigger control, and exactly
    one if the change left none or one.  After a change that only rewrites
    attributes and text the callback does not run: the document stays as
    the page left it, with or without a header. *)
Theorem observer_restores_trigger (changes : list Dom.Change) (doc : Dom.Node) :
  (forall f,
      find_header (f (Dom.observe changes doc)) <> None ->
      1 <= Dom.count_triggers (Dom.observe (changes ++ [Dom.ChildList f]) doc)
      /\ (Dom.count_triggers (f (Dom.observe changes doc)) <= 1 ->
          Dom.count_triggers (Dom.observe (changes ++ [Dom.ChildList f]) doc) = 1))
  /\ (forall attrs text,
        Dom.observe (changes ++ [Dom.InPlace attrs text]) doc
        = Dom.relabel attrs text [] (Dom.observe changes doc)).
Proof.
  split.
  - intros f Hheader.
    assert (Dom.observe (changes ++ [Dom.ChildList f]) doc
            = Dom.addExportButton (f (Dom.observe changes doc))) as ->.
    { unfold Dom.observe. rewrite fold_left_app. reflexivity. }
    pose proof (trigger_found_iff (f (Dom.observe changes doc))) as Hfound.
    unfold Dom.addExportButton. fold (find_header (f (Dom.observe changes doc))).
    destruct (Dom.getElementById Dom.export_btn_id (f (Dom.observe changes doc)))
      eqn:Hbtn.
    + assert (1 <= Dom.count_triggers (f (Dom.observe changes doc))) as H1
          by (apply Hfound; discriminate).
      split; [exact H1|]. intros Hle. lia.
    + destruct (find_header (f (Dom.observe changes doc))) as [header|] eqn:Hh;
        [|contradiction].
      destruct (find_header_some _ Hh) as (d & kids & Hat & _).
      unfold Dom.count_triggers.
      rewrite (count_appendChild (Dom.has_id Dom.export_btn_id) Dom.new_button _ _ Hat).
      change (Dom.count_elems (Dom.has_id Dom.export_btn_id) Dom.new_button) with 1.
      assert (Dom.count_elems (Dom.has_id Dom.export_btn_id)
                (f (Dom.observe changes doc)) = 0) as ->
          by (apply find_first_none; exact Hbtn).
      split; [lia|reflexivity].
  - intros attrs text. unfold Dom.observe. rewrite fold_left_app. reflexivity.
Qed.

Lemma observer_restores_trigger_witness :
  Dom.count_triggers
    (Dom.observe [Dom.ChildList (fun _ => Dom.bare_document);
                  Dom.ChildList (fun _ => banner_document)]
                 Dom.playlist_document) = 1
  /\ find_header
       (Dom.observe [Dom.InPlace Dom.mark_header (fun _ s => s)] Dom.unmarked_document)
     = Some [0]
  /\ Dom.count_triggers
       (Dom.observe [Dom.InPlace Dom.mark_header (fun _ s => s)] Dom.unmarked_document)
     = 0.
Proof.
  destruct (observer_restores_trigger [Dom.ChildList (fun _ => Dom.bare_document)]
              Dom.playlist_document) as (Hchild & _).
  destruct (observer_restores_trigger [] Dom.unmarked_document) as (_ & Hplace).
  split.
  - apply (Hchild (fun _ => banner_document)); [vm_compute; discriminate|vm_compute; lia].
  - change (Dom.observe [Dom.InPlace Dom.mark_header (fun _ s => s)] Dom.unmarked_document)
      with (Dom.observe ([] ++ [Dom.InPlace Dom.mark_header (fun _ s => s)])
                        Dom.unmarked_document).
    rewrite (Hplace Dom.mark_header (fun _ s => s)).
    split; vm_compute; reflexivity.
Defined.

(** ** After the page has stopped loading *)

(** X12. Once the row count no longer changes, from poll s on, the loop
    makes at most four more rounds: it has stopped by round s + 4. *)
Theorem collector_settles_within_four_rounds
        (h : Host) (c : Container) (b : Button) (s : nat) :
  find_scrollContainer h = Some c ->
  1 <= s ->
  s + 4 <= 100 ->
  (forall r, s <= r <= s + 4 -> observed h r = observed h s) ->
  scroll_triggers (run_export h b) <= s + 4
  /\ exists k, scroll_triggers (run_export h b) = k
               /\ In (EvExtractSongs (songs_at h k)) (trace (snd (run_export h b))).
Proof.
  intros Hsome Hs Hcap Hflat.
  assert (stable_window (observed h) (s + 4)) as Hwin.
  { split; [lia|]. intros j Hj.
    rewrite (Hflat (s + 4 - j)) by lia.
    destruct (s + 4 - j - 1) as [|r] eqn:E; [lia|].
    cbn [seen]. rewrite (Hflat (S r)) by lia. reflexivity. }
  destruct (@first_stable h (s + 4) Hwin) as (k & Hk & Hwink & Hfirst).
  assert (k <= 100) as Hk100 by lia.
  pose proof (@run_export_stops_at h b c k Hsome Hk100 Hwink Hfirst) as Hrun.
  destruct (@stops_at_counts h c b k Hrun) as (Hrounds & _ & Hin).
  split; [lia|]. exists k. split; assumption.
Qed.

Lemma collector_settles_within_four_rounds_witness :
  scroll_triggers (run_export churning_page ready) <= 10.
Proof.
  assert (forall r, 6 <= r <= 6 + 4 -> observed churning_page r = observed churning_page 6)
    as Hflat.
  { intros r Hr.
    assert (r = 6 \/ r = 7 \/ r = 8 \/ r = 9 \/ r = 10) as [-> | [-> | [-> | [-> | ->]]]]
        by lia; reflexivity. }
  assert (1 <= 6) as H1 by lia.
  assert (6 + 4 <= 100) as H2 by lia.
  exact (proj1 (@collector_settles_within_four_rounds churning_page 1 ready 6
                  eq_refl H1 H2 Hflat)).
Defined.
